(** * Weather ingestion and yearly statistics: a shallow embedding

    The development follows the three programs of the repository:

    - [src/ingest_weather.py], the batch script that parses station files,
      converts units and upserts the rows in batches ([Module IngestScript]);
    - [src/compute_stats.py], the yearly aggregation query
      ([Module ComputeStats]);
    - [src/app/ingest_weather.py], the start-up ingestion of the web
      application with its marker table ([Module AppIngest]).

    Python text is modelled by Rocq strings, read as sequences of the code
    points U+0000 to U+00FF.  Python floats are IEEE 754 binary64 numbers,
    modelled by the primitive floats of Rocq.  The relational store is
    modelled by finite maps keyed by the unique constraints declared in
    [src/app/models.py]; a query reads the rows of a table in an order of
    the store's choosing, and its aggregates over [double precision]
    columns are those of the store, evaluated in one pass over the rows. *)

From Stdlib Require Import ZArith List String Ascii Bool Lia.
From Stdlib Require Import Floats.PrimFloat Floats.SpecFloat Floats.FloatOps.
From Stdlib Require Import Floats.FloatAxioms.
From stdpp Require Import gmap strings list fin_maps.

Open Scope string_scope.

(** Decimal float literals stand for the nearest binary64 number, as in
    Python. *)
Set Warnings "-inexact-float".

(** ** Results of fallible code *)

(** The exceptions the modelled code can see. *)
Inductive exn : Type :=
  | RuntimeError      (* raised by the scripts for a missing configuration *)
  | OverflowError     (* int too large to convert to float *)
  | StorageError.     (* psycopg2.Error / SQLAlchemyError *)

Inductive result (A : Type) : Type :=
  | Ok (a : A)
  | Raise (e : exn).
Arguments Ok {A} a.
Arguments Raise {A} e.

(** ** Python text primitives *)
Module PyStr.

Definition code (a : ascii) : N := N_of_ascii a.

(** Characters removed by [str.strip()] without argument: the code points
    below U+0100 for which [str.isspace] holds. *)
Definition isspace_char (a : ascii) : bool :=
  let c := code a in
  ((9 <=? c) && (c <=? 13) || (28 <=? c) && (c <=? 32)
   || (c =? 133) || (c =? 160))%N.

(** Characters accepted by [str.isdigit]: the ASCII digits and, below
    U+0100, the superscripts two, three and one. *)
Definition isdigit_char (a : ascii) : bool :=
  let c := code a in
  ((48 <=? c) && (c <=? 57) || (c =? 178) || (c =? 179) || (c =? 185))%N.

(** Characters with a decimal value, the only digits [int()] accepts. *)
Definition isdecimal_char (a : ascii) : bool :=
  let c := code a in ((48 <=? c) && (c <=? 57))%N.

Definition decimal_value (a : ascii) : Z := Z.of_N (code a) - 48.

Fixpoint lstrip_with (p : ascii -> bool) (s : string) : string :=
  match s with
  | EmptyString => EmptyString
  | String a s' => if p a then lstrip_with p s' else s
  end.

Fixpoint rstrip_with (p : ascii -> bool) (s : string) : string :=
  match s with
  | EmptyString => EmptyString
  | String a s' =>
      match rstrip_with p s' with
      | EmptyString => if p a then EmptyString else String a EmptyString
      | r => String a r
      end
  end.

(** [x.strip()] *)
Definition strip (s : string) : string :=
  rstrip_with isspace_char (lstrip_with isspace_char s).

(** [line.rstrip("\n")] *)
Definition rstrip_newline (s : string) : string :=
  rstrip_with (fun a => (code a =? 10)%N) s.

(** [s.split(sep)] for a one-character separator: never empty. *)
Fixpoint split (sep : ascii) (s : string) : list string :=
  match s with
  | EmptyString => [EmptyString]
  | String a s' =>
      if (code a =? code sep)%N then EmptyString :: split sep s'
      else match split sep s' with
           | h :: t => String a h :: t
           | [] => [String a EmptyString]
           end
  end.

Definition tab : ascii := ascii_of_N 9.

Fixpoint all_chars (p : ascii -> bool) (s : string) : bool :=
  match s with
  | EmptyString => true
  | String a s' => p a && all_chars p s'
  end.

(** [s.isdigit()]: at least one character, all of them digits. *)
Definition isdigit (s : string) : bool :=
  match s with
  | EmptyString => false
  | _ => all_chars isdigit_char s
  end.

Definition len (s : string) : nat := String.length s.

(** [s[i:j]] for [0 <= i <= j]. *)
Definition slice (i j : nat) (s : string) : string :=
  String.substring i (j - i) s.

End PyStr.

(** ** Python numbers *)
Module PyNum.
Import PyStr.

(** Scanner of [digit+ ("_" digit+)*], the body of a base-10 literal as
    [int()] reads it; [prev] tells what the previous character was
    ([None] at the start, [Some true] after a digit, [Some false] after an
    underscore).  The result is the list of the digit values. *)
Fixpoint scan_digits (prev : option bool) (s : string) : option (list Z) :=
  match s with
  | EmptyString =>
      match prev with
      | Some true => Some []
      | _ => None
      end
  | String a s' =>
      if isdecimal_char a then
        match scan_digits (Some true) s' with
        | Some ds => Some (decimal_value a :: ds)
        | None => None
        end
      else if (code a =? 95)%N then
        match prev with
        | Some true => scan_digits (Some false) s'
        | _ => None
        end
      else None
  end.

Definition digits_value (ds : list Z) : Z :=
  fold_left (fun acc d => 10 * acc + d)%Z ds 0%Z.

(** The optional sign of a literal and what follows it. *)
Definition sign_and_body (x : string) : bool * string :=
  match x with
  | String a r =>
      if (code a =? 43)%N then (false, r)
      else if (code a =? 45)%N then (true, r)
      else (false, x)
  | EmptyString => (false, x)
  end.

(** [int(x)] on a string without surrounding whitespace; [None] is
    [ValueError].  [max_str_digits] is the interpreter's limit on the
    number of digits ([sys.get_int_max_str_digits()]: 4300 by default, 0
    for no limit, which is also how interpreters without the limit behave;
    the interpreter accepts no other value below 640). *)
Definition int (max_str_digits : nat) (x : string) : option Z :=
  match scan_digits None (sign_and_body x).2 with
  | None => None
  | Some ds =>
      if (0 <? max_str_digits)%nat && (max_str_digits <? length ds)%nat
      then None
      else Some (if (sign_and_body x).1 then - digits_value ds
                 else digits_value ds)%Z
  end.

(** Conversion of an [int] operand of a float division: the nearest
    binary64 number, ties to even; [None] is [OverflowError]. *)
Definition int_to_float (z : Z) : option float :=
  match binary_normalize prec emax z 0 false with
  | S754_infinity _ => None
  | sf => Some (SF2Prim sf)
  end.

(** [i / d] for an [int] [i] and a float [d]. *)
Definition int_truediv (i : Z) (d : float) : result float :=
  match int_to_float i with
  | Some f => Ok (PrimFloat.div f d)
  | None => Raise OverflowError
  end.

End PyNum.

(** ** A state and exception monad

    Code that updates local variables and the store and may raise is a
    function from the state to a result and the state at that point. *)
Definition M (S A : Type) : Type := S -> result A * S.

#[global] Instance M_ret {S} : MRet (M S) := fun A a s => (Ok a, s).
#[global] Instance M_bind {S} : MBind (M S) := fun A B f c s =>
  match c s with
  | (Ok a, s') => f a s'
  | (Raise e, s') => (Raise e, s')
  end.

Definition raise {S A} (e : exn) : M S A := fun s => (Raise e, s).
Definition gets {S A} (f : S -> A) : M S A := fun s => (Ok (f s), s).
Definition modify {S} (f : S -> S) : M S unit := fun s => (Ok tt, f s).

(** [for x in xs: body(x)] *)
Fixpoint for_each {S X} (xs : list X) (body : X -> M S unit) : M S unit :=
  match xs with
  | [] => mret tt
  | x :: xs' => body x ≫= fun _ => for_each xs' body
  end.

(** [try: c finally: f] *)
Definition try_finally {S A} (c : M S A) (f : S -> S) : M S A :=
  fun s => let '(r, s') := c s in (r, f s').

(** [try: c except E: h; raise], where [catches] tells the exceptions of
    class [E]. *)
Definition try_except_reraise {S A} (c : M S A) (catches : exn -> bool)
    (h : S -> S) : M S A :=
  fun s =>
    match c s with
    | (Raise e, s') => (Raise e, if catches e then h s' else s')
    | ok => ok
    end.

(** ** The relational store *)
Module Storage.
Import PyStr.

(** A calendar date: year, month, day. *)
Abbreviation date := (Z * Z * Z)%type.

Definition year (d : date) : Z := d.1.1.

(** The three measurement columns of [weather] (src/app/models.py). *)
Record measurements : Type := {
  max_temp_c : option float;
  min_temp_c : option float;
  precip_cm : option float
}.

(** The value columns of [weather_stats]. *)
Record yearly : Type := {
  avg_max_temp_c : option float;
  avg_min_temp_c : option float;
  total_precip_cm : option float
}.

(** Table [weather], unique on (station_id, date). *)
Abbreviation weather_table := (gmap (string * (Z * Z * Z)) measurements).
(** Table [weather_stats], unique on (station_id, year). *)
Abbreviation stats_table := (gmap (string * Z) yearly).
(** Table [ingestion_state], primary key [key]. *)
Abbreviation marker_table := (gmap string bool).

Definition is_leap (y : Z) : bool :=
  ((y mod 4 =? 0) && (negb (y mod 100 =? 0) || (y mod 400 =? 0)))%Z.

Definition days_in_month (y m : Z) : Z :=
  if (m =? 2)%Z then (if is_leap y then 29 else 28)%Z
  else if ((m =? 4) || (m =? 6) || (m =? 9) || (m =? 11))%Z then 30%Z
  else 31%Z.

Definition ascii_number (s : string) : option Z :=
  if all_chars isdecimal_char s
  then Some (fold_left (fun acc a => 10 * acc + decimal_value a)%Z
                       (list_ascii_of_string s) 0%Z)
  else None.

(** The cast of a text to [DATE] by the store, for the texts the script
    builds ([YYYY-MM-DD]); [None] is the store's error for a malformed or
    out-of-range date. *)
Definition date_in (s : string) : option date :=
  if negb (len s =? 10)%nat then None
  else if negb (String.eqb (slice 4 5 s) "-" && String.eqb (slice 7 8 s) "-")
  then None
  else
    match ascii_number (slice 0 4 s), ascii_number (slice 5 7 s),
          ascii_number (slice 8 10 s) with
    | Some y, Some m, Some d =>
        if ((1 <=? y) && (1 <=? m) && (m <=? 12) && (1 <=? d)
            && (d <=? days_in_month y m))%Z
        then Some (y, m, d)
        else None
    | _, _, _ => None
    end.

(** One proposed row of [INSERT ... ON CONFLICT (station_id, date) DO
    UPDATE SET max_temp_c = EXCLUDED.max_temp_c, min_temp_c =
    EXCLUDED.min_temp_c, precip_cm = EXCLUDED.precip_cm]. *)
Definition on_conflict_do_update
    (t : weather_table) (r : (string * date) * measurements) : weather_table :=
  match t !! r.1 with
  | None => <[r.1 := r.2]> t
  | Some existing =>
      <[r.1 := {| max_temp_c := max_temp_c r.2;
                  min_temp_c := min_temp_c r.2;
                  precip_cm := precip_cm r.2 |}]> t
  end.

(** One proposed row of [INSERT ... ON CONFLICT (station_id, date) DO
    NOTHING]. *)
Definition on_conflict_do_nothing {K V} `{Countable K}
    (t : gmap K V) (r : K * V) : gmap K V :=
  match t !! r.1 with
  | None => <[r.1 := r.2]> t
  | Some existing => t
  end.

(** The upsert statement on one page of rows whose date is still a text
    ([cast_row] is the cast of one row).
    The store raises when a date does not cast, and when two rows of the
    one statement have the same key (a DO UPDATE statement cannot affect a
    row a second time). *)
Definition cast_row (r : string * string * measurements)
    : option ((string * date) * measurements) :=
  d ← date_in r.1.2; Some ((r.1.1, d), r.2).

Definition insert_do_update
    (page : list (string * string * measurements)) (t : weather_table)
    : result weather_table :=
  match mapM cast_row page with
  | None => Raise StorageError
  | Some rows =>
      if bool_decide (NoDup (rows.*1))
      then Ok (foldl on_conflict_do_update t rows)
      else Raise StorageError
  end.

(** Addition of two [double precision] values ([float8pl]): the store
    raises "value out of range: overflow" when the sum of two finite values
    is infinite. *)
Definition float8_pl (a b : float) : result float :=
  let r := PrimFloat.add a b in
  if is_infinity r && negb (is_infinity a) && negb (is_infinity b)
  then Raise StorageError
  else Ok r.

(** SQL [SUM] over a nullable [double precision] column.  The transition
    is [float8pl] and is strict: a NULL input is skipped, and the state is
    NULL until the first input that is not NULL, which becomes the state. *)
Definition sum_step (acc : option float) (v : option float)
    : result (option float) :=
  match v, acc with
  | None, _ => Ok acc
  | Some x, None => Ok (Some x)
  | Some x, Some s =>
      match float8_pl s x with
      | Ok r => Ok (Some r)
      | Raise e => Raise e
      end
  end.

Fixpoint sum_from (acc : option float) (vs : list (option float))
    : result (option float) :=
  match vs with
  | [] => Ok acc
  | v :: vs' =>
      match sum_step acc v with
      | Ok acc' => sum_from acc' vs'
      | Raise e => Raise e
      end
  end.

Definition sql_sum (vs : list (option float)) : result (option float) :=
  sum_from None vs.

(** The transition state of SQL [AVG] over [double precision]: the number
    of inputs [N], their sum [Sx] and the sum of squared deviations [Sxx],
    all three as floats. *)
Record accum : Type := mk_accum {
  acc_N : float;
  acc_Sx : float;
  acc_Sxx : float
}.

(** The transition [float8_accum] of [AVG] (the Youngs-Cramer update of
    the store since version 12).  It raises when finite inputs make [Sx] or
    [Sxx] infinite. *)
Definition float8_accum (t : accum) (newval : float) : result accum :=
  let N := PrimFloat.add (acc_N t) 1 in
  let Sx := PrimFloat.add (acc_Sx t) newval in
  if PrimFloat.ltb 0 (acc_N t) then
    let tmp := PrimFloat.sub (PrimFloat.mul newval N) Sx in
    let Sxx := PrimFloat.add (acc_Sxx t)
                 (PrimFloat.div (PrimFloat.mul tmp tmp)
                                (PrimFloat.mul N (acc_N t))) in
    if is_infinity Sx || is_infinity Sxx then
      if negb (is_infinity (acc_Sx t)) && negb (is_infinity newval)
      then Raise StorageError
      else Ok (mk_accum N Sx nan)
    else Ok (mk_accum N Sx Sxx)
  else
    Ok (mk_accum N Sx
          (if is_nan newval || is_infinity newval then nan else acc_Sxx t)).

(** The transition is strict: a NULL input is skipped. *)
Fixpoint accum_from (t : accum) (vs : list (option float)) : result accum :=
  match vs with
  | [] => Ok t
  | None :: vs' => accum_from t vs'
  | Some x :: vs' =>
      match float8_accum t x with
      | Ok t' => accum_from t' vs'
      | Raise e => Raise e
      end
  end.

(** The final function [float8_avg]: NULL when no input was counted. *)
Definition float8_avg (t : accum) : option float :=
  if PrimFloat.eqb (acc_N t) 0 then None
  else Some (PrimFloat.div (acc_Sx t) (acc_N t)).

Definition sql_avg (vs : list (option float)) : result (option float) :=
  match accum_from (mk_accum 0 0 0) vs with
  | Ok t => Ok (float8_avg t)
  | Raise e => Raise e
  end.

End Storage.

#[global] Instance result_ret : MRet result := fun A a => Ok a.
#[global] Instance result_bind : MBind result := fun A B f c =>
  match c with
  | Ok a => f a
  | Raise e => Raise e
  end.

(** ** [psycopg2.extras.execute_values] *)
Module Psycopg2.
Import Storage.

(** The pages of an argument list: full pages of [page_size] rows and a
    last, shorter, non-empty one.  [page] holds the rows of the current page
    in reverse. *)
Fixpoint paginate_from {A} (page_size : nat) (page : list A) (seq : list A)
    : list (list A) :=
  match seq with
  | [] => match page with [] => [] | _ => [rev page] end
  | x :: seq' =>
      let page' := x :: page in
      if (length page' =? page_size)%nat
      then rev page' :: paginate_from page_size [] seq'
      else paginate_from page_size page' seq'
  end.

Definition paginate {A} (seq : list A) (page_size : nat) : list (list A) :=
  paginate_from page_size [] seq.

(** One upsert statement per page, in order, inside the open transaction;
    the first statement that fails raises. *)
Fixpoint execute_pages (pages : list (list (string * string * measurements)))
    (t : weather_table) : result weather_table :=
  match pages with
  | [] => Ok t
  | p :: pages' => insert_do_update p t ≫= execute_pages pages'
  end.

Definition execute_values (argslist : list (string * string * measurements))
    (page_size : nat) (t : weather_table) : result weather_table :=
  execute_pages (paginate argslist page_size) t.

End Psycopg2.

(** ** src/ingest_weather.py *)
Module IngestScript.
Import PyStr PyNum Storage Psycopg2.

(** A row of the batch: (station_id, obs_date, max_c, min_c, precip_cm). *)
Abbreviation row := (string * string * measurements)%type.

(** The local variables of [main], the table [weather] as committed, and
    the argument lists of the [execute_values] calls that were committed. *)
Record state : Type := mk_state {
  total_lines : nat;
  upserts : nat;
  skipped_bad_lines : nat;
  batch : list row;
  weather : weather_table;
  executed : list (list row);
  conn_open : bool
}.

Definition init (t : weather_table) : state :=
  mk_state 0 0 0 [] t [] false.

Inductive parsed : Type :=
  | Rejected
  | Accepted (r : row).

Inductive outcome : Type :=
  | Skipped
  | Completed.

Section Script.
(** The module constants read from the environment, and the digit limit of
    the interpreter. *)
Variable COMMIT_EVERY : Z.
Variable FORCE_INGEST : bool.
Variable max_str_digits : nat.

Definition _parse_int (x : string) : option Z :=
  let x := strip x in
  if String.eqb x "" || String.eqb x "-9999" then None
  else int max_str_digits x.

(** [None if i is None else i / 10.0] *)
Definition convert_temp (i : option Z) : result (option float) :=
  match i with
  | None => Ok None
  | Some z => f ← int_truediv z 10%float; Ok (Some f)
  end.

(** [None if i is None else (i / 10.0) / 10.0] *)
Definition convert_precip (i : option Z) : result (option float) :=
  match i with
  | None => Ok None
  | Some z => f ← int_truediv z 10%float; Ok (Some (PrimFloat.div f 10%float))
  end.

(** The body of the loop over the lines, from the split to the tuple that
    is appended to the batch. *)
Definition parse_line (station_id line : string) : result parsed :=
  let parts := split tab (rstrip_newline line) in
  if (length parts <? 4)%nat then Ok Rejected
  else
    let datestr := strip (nth 0 parts "") in
    if negb (len datestr =? 8)%nat || negb (isdigit datestr) then Ok Rejected
    else
      let tmax_i := _parse_int (nth 1 parts "") in
      let tmin_i := _parse_int (nth 2 parts "") in
      let prcp_i := _parse_int (nth 3 parts "") in
      max_c ← convert_temp tmax_i;
      min_c ← convert_temp tmin_i;
      precip ← convert_precip prcp_i;
      let obs_date :=
        slice 0 4 datestr ++ "-" ++ slice 4 6 datestr ++ "-"
          ++ slice 6 8 datestr in
      Ok (Accepted (station_id, obs_date,
                    {| max_temp_c := max_c; min_temp_c := min_c;
                       precip_cm := precip |})).

(** [execute_values(cur, upsert_sql, batch, page_size=5000); conn.commit();
    upserts += len(batch); batch.clear()].  A failing statement raises
    before the commit: the store stays as the last commit left it. *)
Definition flush : M state unit := fun s =>
  match execute_values (batch s) 5000 (weather s) with
  | Raise e => (Raise e, s)
  | Ok t =>
      (Ok tt, mk_state (total_lines s) (upserts s + length (batch s))
                       (skipped_bad_lines s) [] t
                       (executed s ++ [batch s]) (conn_open s))
  end.

Definition count_line (s : state) : state :=
  mk_state (S (total_lines s)) (upserts s) (skipped_bad_lines s) (batch s)
           (weather s) (executed s) (conn_open s).

Definition count_skipped (s : state) : state :=
  mk_state (total_lines s) (upserts s) (S (skipped_bad_lines s)) (batch s)
           (weather s) (executed s) (conn_open s).

Definition append (r : row) (s : state) : state :=
  mk_state (total_lines s) (upserts s) (skipped_bad_lines s) (batch s ++ [r])
           (weather s) (executed s) (conn_open s).

Definition set_conn (b : bool) (s : state) : state :=
  mk_state (total_lines s) (upserts s) (skipped_bad_lines s) (batch s)
           (weather s) (executed s) b.

(** One iteration of [for line in f]. *)
Definition on_line (station_id line : string) : M state unit :=
  modify count_line ≫= fun _ =>
  match parse_line station_id line with
  | Raise e => raise e
  | Ok Rejected => modify count_skipped
  | Ok (Accepted r) =>
      modify (append r) ≫= fun _ =>
      b ← gets batch;
      if (COMMIT_EVERY <=? Z.of_nat (length b))%Z then flush else mret tt
  end.

(** [if batch: ...] after the loops. *)
Definition final_flush : M state unit :=
  b ← gets batch;
  match b with
  | [] => mret tt
  | _ => flush
  end.

(** The [try] block: the loop over the files, each a stem and its lines. *)
Definition ingest_files (files : list (string * list string)) : M state unit :=
  for_each files (fun fp => for_each fp.2 (on_line fp.1)) ≫= fun _ =>
  final_flush.

(** [main()].  [database_url] is the value of DATABASE_URL ("" when unset),
    [wx_dir] the sorted [*.txt] files of WX_DIR ([None] when the directory
    is missing), [t] the table [weather] at the start. *)
Definition main (database_url : string)
    (wx_dir : option (list (string * list string))) (t : weather_table)
    : result outcome * state :=
  if String.eqb (strip database_url) "" then (Raise RuntimeError, init t)
  else
    let existing := size t in
    if (0 <? existing)%nat && negb FORCE_INGEST then (Ok Skipped, init t)
    else
      match wx_dir with
      | None => (Raise RuntimeError, init t)
      | Some files =>
          let '(r, s) :=
            try_finally (ingest_files files) (set_conn false)
                        (set_conn true (init t)) in
          (r ≫= fun _ => Ok Completed, s)
      end.

End Script.
End IngestScript.

(** ** src/compute_stats.py *)
Module ComputeStats.
Import Storage.

(** [GROUP BY station_id, extract(year from date)] *)
Definition group_key (k : string * date) : string * Z := (k.1, year k.2).

(** The rows of [weather] as the store hands them to the aggregation: the
    rows of the table, each once, in an order of the store's choosing. *)
Definition scan_of (t : weather_table)
    (rows : list ((string * date) * measurements)) : Prop :=
  rows ≡ₚ map_to_list t.

(** The rows of one group, in the order of the scan. *)
Definition members (rows : list ((string * date) * measurements))
    (g : string * Z) : list ((string * date) * measurements) :=
  filter (fun r => group_key r.1 = g) rows.

(** The result row of one group: [AVG(max_temp_c)], [AVG(min_temp_c)] and
    [SUM(precip_cm)] over the rows of the group. *)
Definition aggregate (rows : list ((string * date) * measurements))
    (g : string * Z) : result ((string * Z) * yearly) :=
  sql_avg ((max_temp_c ∘ snd) <$> members rows g) ≫= fun avg_max =>
  sql_avg ((min_temp_c ∘ snd) <$> members rows g) ≫= fun avg_min =>
  sql_sum ((precip_cm ∘ snd) <$> members rows g) ≫= fun total =>
  Ok (g, {| avg_max_temp_c := avg_max; avg_min_temp_c := avg_min;
            total_precip_cm := total |}).

(** [query.all()] in [main], over the scanned rows of [weather]: one result
    row per station and year that has at least one row; the statement
    raises when an aggregate of a group does. *)
Definition query (rows : list ((string * date) * measurements))
    : result (list ((string * Z) * yearly)) :=
  mapM (aggregate rows) (remove_dups ((group_key ∘ fst) <$> rows)).

End ComputeStats.

(** ** src/app/ingest_weather.py *)
Module AppIngest.
Import Storage.

Definition INGESTION_KEY : string := "weather_ingested_v1".

(** The three tables. *)
Record db : Type := mk_db {
  weather : weather_table;
  weather_stats : stats_table;
  ingestion_state : marker_table
}.

(** The round trips to the store and the session calls, as they are
    issued. *)
Inductive event : Type :=
  | CreateAll
  | GetMarker
  | CountWeather
  | CountStats
  | InsertWeather
  | InsertStats
  | MergeMarker
  | Commit
  | Rollback
  | Close.

#[global] Instance event_eq_dec : EqDecision event.
Proof. solve_decision. Defined.

(** The store as committed, the view of the session's open transaction,
    the session handle ([None] before [SessionLocal()], [Some true] while
    open, [Some false] once closed), the calls issued so far, and the
    environment: which round trips fail ([faults n] for the n-th one) and
    the variable FORCE_INGEST of the process. *)
Record world : Type := mk_world {
  committed : db;
  working : db;
  session : option bool;
  trace : list event;
  faults : nat -> bool;
  environ_FORCE_INGEST : bool
}.

Definition set_working (d : db) (w : world) : world :=
  mk_world (committed w) d (session w) (trace w) (faults w)
           (environ_FORCE_INGEST w).

Definition log (e : event) (w : world) : world :=
  mk_world (committed w) (working w) (session w) (trace w ++ [e]) (faults w)
           (environ_FORCE_INGEST w).

(** A call that reaches the store: it is recorded, and raises
    [SQLAlchemyError] when the environment makes it fail. *)
Definition round_trip (e : event) : M world unit := fun w =>
  if faults w (length (trace w))
  then (Raise StorageError, log e w)
  else (Ok tt, log e w).

(** [Base.metadata.create_all(bind=engine)] *)
Definition ensure_tables_exist : M world unit := round_trip CreateAll.

(** [SessionLocal()]: a transaction view on the committed store. *)
Definition SessionLocal : M world unit := fun w =>
  (Ok tt, mk_world (committed w) (committed w) (Some true) (trace w)
                   (faults w) (environ_FORCE_INGEST w)).

(** [session.commit()] *)
Definition commit : M world unit :=
  round_trip Commit ≫= fun _ =>
  modify (fun w => mk_world (working w) (working w) (session w) (trace w)
                            (faults w) (environ_FORCE_INGEST w)).

(** [if session is not None: session.rollback()] *)
Definition rollback (w : world) : world :=
  match session w with
  | None => w
  | Some _ => log Rollback (set_working (committed w) w)
  end.

(** [if session is not None: session.close()] *)
Definition close (w : world) : world :=
  match session w with
  | None => w
  | Some _ =>
      mk_world (committed w) (committed w) (Some false) (trace w ++ [Close])
               (faults w) (environ_FORCE_INGEST w)
  end.

Definition already_ingested : M world bool :=
  round_trip GetMarker ≫= fun _ =>
  marker ← gets (fun w => ingestion_state (working w) !! INGESTION_KEY);
  match marker with
  | Some value => mret value
  | None =>
      round_trip CountWeather ≫= fun _ =>
      weather_count ← gets (fun w => size (weather (working w)));
      round_trip CountStats ≫= fun _ =>
      stats_count ← gets (fun w => size (weather_stats (working w)));
      mret ((0 <? weather_count)%nat && (0 <? stats_count)%nat)
  end.

(** [session.merge(IngestionState(key=INGESTION_KEY, value=True));
    session.commit()] *)
Definition mark_ingested : M world unit :=
  round_trip MergeMarker ≫= fun _ =>
  modify (fun w =>
    set_working (mk_db (weather (working w)) (weather_stats (working w))
                       (<[INGESTION_KEY := true]> (ingestion_state (working w))))
                w) ≫= fun _ =>
  commit.

(** The result is the number of rows the statement inserted. *)
Definition ingest_weather (rows : list ((string * date) * measurements))
    : M world nat :=
  match rows with
  | [] => mret 0%nat
  | _ =>
      round_trip InsertWeather ≫= fun _ =>
      before ← gets (fun w => weather (working w));
      let after := foldl on_conflict_do_nothing before rows in
      modify (fun w =>
        set_working (mk_db after (weather_stats (working w))
                           (ingestion_state (working w))) w) ≫= fun _ =>
      commit ≫= fun _ =>
      mret (size after - size before)%nat
  end.

Definition ingest_stats (rows : list ((string * Z) * yearly)) : M world nat :=
  match rows with
  | [] => mret 0%nat
  | _ =>
      round_trip InsertStats ≫= fun _ =>
      before ← gets (fun w => weather_stats (working w));
      let after := foldl on_conflict_do_nothing before rows in
      modify (fun w =>
        set_working (mk_db (weather (working w)) after
                           (ingestion_state (working w))) w) ≫= fun _ =>
      commit ≫= fun _ =>
      mret (size after - size before)%nat
  end.

(** What a start-up run reports. *)
Inductive outcome : Type :=
  | Skipped          (* "Data already present — skipping ingestion." *)
  | Done (w_ins s_ins : nat).

Section Startup.
(** The rows the two loaders return.  In the repository both are stubs that
    return the empty list, to be replaced by the project's loaders. *)
Variable load_weather_rows : list ((string * date) * measurements).
Variable load_stats_rows : list ((string * Z) * yearly).

(** The body of the [try] block. *)
Definition startup_body : M world outcome :=
  SessionLocal ≫= fun _ =>
  already_ingested ≫= fun skip : bool =>
  if skip then mret Skipped
  else
    let weather_rows := load_weather_rows in
    let stats_rows := load_stats_rows in
    w_ins ← ingest_weather weather_rows;
    s_ins ← ingest_stats stats_rows;
    mark_ingested ≫= fun _ =>
    mret (Done w_ins s_ins).

Definition run_startup_ingestion : M world outcome :=
  ensure_tables_exist ≫= fun _ =>
  try_finally
    (try_except_reraise startup_body
       (fun e => match e with StorageError => true | _ => false end)
       rollback)
    close.

End Startup.
End AppIngest.

(** * Properties *)

Open Scope list_scope.

(** ** Loops in the monad *)

Lemma for_each_app {S X} (xs ys : list X) (body : X -> M S unit) (s : S) :
  for_each (xs ++ ys) body s =
  match for_each xs body s with
  | (Ok _, s') => for_each ys body s'
  | (Raise e, s') => (Raise e, s')
  end.
Proof.
  revert s. induction xs as [|x xs IH]; intros s; simpl.
  - reflexivity.
  - unfold mbind, M_bind. destruct (body x s) as [[[]|e] s']; [apply IH|reflexivity].
Qed.

(** A loop over files and their lines is a loop over the lines, each with
    the stem of its file. *)
Definition lines_of (files : list (string * list string))
    : list (string * string) :=
  files ≫= fun fp => (fun l => (fp.1, l)) <$> fp.2.

Lemma for_each_fmap {S X Y} (f : X -> Y) (xs : list X) (body : Y -> M S unit) s :
  for_each (f <$> xs) body s = for_each xs (fun x => body (f x)) s.
Proof.
  revert s. induction xs as [|x xs IH]; intros s; simpl; [reflexivity|].
  unfold mbind, M_bind. destruct (body (f x) s) as [[[]|e] s']; [apply IH|reflexivity].
Qed.

Lemma for_each_files {S} (files : list (string * list string))
    (body : string -> string -> M S unit) (s : S) :
  for_each files (fun fp => for_each fp.2 (body fp.1)) s =
  for_each (lines_of files) (fun p => body p.1 p.2) s.
Proof.
  revert s. induction files as [|fp files IH]; intros s; [reflexivity|].
  change (lines_of (fp :: files))
    with (((fun l => (fp.1, l)) <$> fp.2) ++ lines_of files).
  rewrite for_each_app, for_each_fmap. simpl.
  unfold mbind at 1, M_bind at 1.
  destruct (for_each fp.2 (body fp.1) s) as [[[]|e] s']; [apply IH|reflexivity].
Qed.

(** Induction over a loop that completes: [P] holds of the elements
    processed so far and the state reached. *)
Lemma for_each_ok_ind {S X} (P : list X -> S -> Prop) (body : X -> M S unit)
    (xs : list X) (s0 s1 : S) :
  P [] s0 ->
  (forall pre x s s', P pre s -> body x s = (Ok tt, s') -> P (pre ++ [x]) s') ->
  for_each xs body s0 = (Ok tt, s1) ->
  P xs s1.
Proof.
  intros H0 Hstep.
  enough (G : forall pre s, P pre s -> for_each xs body s = (Ok tt, s1) ->
                            P (pre ++ xs) s1) by (apply (G [] s0 H0)).
  induction xs as [|x xs IH]; intros pre s Hp Hrun; simpl in Hrun.
  - rewrite app_nil_r. unfold mret, M_ret in Hrun. congruence.
  - unfold mbind, M_bind in Hrun.
    destruct (body x s) as [[[]|e] s'] eqn:Hb; [|discriminate].
    replace (pre ++ x :: xs) with ((pre ++ [x]) ++ xs)
      by (rewrite <- app_assoc; reflexivity).
    eapply IH; [eapply Hstep; eassumption|exact Hrun].
Qed.

(** Induction over a loop, whatever its result: [P] relates the state at
    the start of an iteration and the state the loop ends in. *)
Lemma for_each_any_ind {S X} (P : S -> Prop) (body : X -> M S unit)
    (xs : list X) (s0 : S) :
  P s0 ->
  (forall x s, P s -> P (body x s).2) ->
  P (for_each xs body s0).2.
Proof.
  intros H0 Hstep. revert s0 H0.
  induction xs as [|x xs IH]; intros s0 H0; simpl; [exact H0|].
  unfold mbind, M_bind. specialize (Hstep x s0 H0).
  destruct (body x s0) as [[[]|e] s']; simpl in *; [apply IH|]; exact Hstep.
Qed.

(** ** The upsert statement *)
Section Upsert.
Import Storage Psycopg2.

Lemma on_conflict_do_update_insert (t : weather_table) r :
  on_conflict_do_update t r = <[r.1 := r.2]> t.
Proof.
  unfold on_conflict_do_update. destruct (t !! r.1); [|reflexivity].
  destruct r as [k []]; reflexivity.
Qed.

Lemma upsert_lookup_other (rows : list ((string * date) * measurements))
    (t : weather_table) k :
  k ∉ rows.*1 -> foldl on_conflict_do_update t rows !! k = t !! k.
Proof.
  revert t. induction rows as [|r rows IH]; intros t Hk; simpl; [reflexivity|].
  rewrite fmap_cons, not_elem_of_cons in Hk. destruct Hk as [Hne Hk].
  rewrite IH, on_conflict_do_update_insert by exact Hk.
  apply lookup_insert_ne. congruence.
Qed.

(** In a statement whose rows have distinct keys every row ends up stored
    with its own values. *)
Lemma upsert_lookup_row (rows : list ((string * date) * measurements))
    (t : weather_table) k v :
  NoDup (rows.*1) -> (k, v) ∈ rows ->
  foldl on_conflict_do_update t rows !! k = Some v.
Proof.
  revert t. induction rows as [|r rows IH]; intros t Hnd Hin; simpl.
  - apply elem_of_nil in Hin. contradiction.
  - rewrite fmap_cons in Hnd. apply NoDup_cons in Hnd as [Hfresh Hnd].
    apply elem_of_cons in Hin as [<-|Hin].
    + simpl in Hfresh. rewrite upsert_lookup_other by exact Hfresh.
      rewrite on_conflict_do_update_insert. apply lookup_insert_eq.
    + apply IH; assumption.
Qed.

(** A later write of a key hides an earlier one. *)
Lemma upsert_overrides (rows : list ((string * date) * measurements))
    (t : weather_table) r :
  on_conflict_do_update
    (foldl on_conflict_do_update (on_conflict_do_update t r) rows) r =
  on_conflict_do_update (foldl on_conflict_do_update t rows) r.
Proof.
  revert t. induction rows as [|r' rows IH]; intros t; simpl.
  - rewrite !on_conflict_do_update_insert. apply insert_insert_eq.
  - destruct (decide (r'.1 = r.1)) as [Heq|Hne].
    + replace (on_conflict_do_update (on_conflict_do_update t r) r')
        with (on_conflict_do_update t r'); [reflexivity|].
      rewrite !on_conflict_do_update_insert, <- Heq.
      symmetry. apply insert_insert_eq.
    + replace (on_conflict_do_update (on_conflict_do_update t r) r')
        with (on_conflict_do_update (on_conflict_do_update t r') r);
        [apply IH|].
      rewrite !on_conflict_do_update_insert.
      apply insert_insert_ne. congruence.
Qed.

(** Replaying the rows that were written changes nothing. *)
Lemma upsert_replay (rows : list ((string * date) * measurements))
    (t : weather_table) :
  foldl on_conflict_do_update (foldl on_conflict_do_update t rows) rows =
  foldl on_conflict_do_update t rows.
Proof.
  revert t. induction rows as [|r rows IH] using rev_ind; intros t.
  - reflexivity.
  - rewrite !foldl_snoc. rewrite upsert_overrides. rewrite IH. reflexivity.
Qed.

(** The rows of a batch as the store reads them. *)
Definition stored_rows (rows : list (string * string * measurements))
    : list ((string * date) * measurements) :=
  omap cast_row rows.

Definition upsert_all (rows : list (string * string * measurements))
    (t : weather_table) : weather_table :=
  foldl on_conflict_do_update t (stored_rows rows).

Lemma stored_rows_app l1 l2 :
  stored_rows (l1 ++ l2) = stored_rows l1 ++ stored_rows l2.
Proof. apply omap_app. Qed.

Lemma upsert_all_app l1 l2 t :
  upsert_all (l1 ++ l2) t = upsert_all l2 (upsert_all l1 t).
Proof. unfold upsert_all. rewrite stored_rows_app. apply foldl_app. Qed.

Lemma mapM_cast_stored page rows :
  mapM cast_row page = Some rows -> stored_rows page = rows.
Proof.
  revert rows. induction page as [|r page IH]; intros rows H.
  - cbn in H. injection H as <-. reflexivity.
  - unfold stored_rows. cbn in *.
    destruct (cast_row r) as [c|]; cbn in *; [|discriminate].
    destruct (mapM cast_row page) as [cs|]; cbn in *; [|discriminate].
    injection H as <-. f_equal. apply IH. reflexivity.
Qed.

(** Whether a statement succeeds depends on its rows alone. *)
Definition statement_ok (page : list (string * string * measurements)) : bool :=
  match mapM cast_row page with
  | Some rows => bool_decide (NoDup (rows.*1))
  | None => false
  end.

Lemma insert_do_update_spec page t :
  insert_do_update page t =
  if statement_ok page then Ok (upsert_all page t) else Raise StorageError.
Proof.
  unfold insert_do_update, statement_ok, upsert_all.
  destruct (mapM cast_row page) as [rows|] eqn:E; [|reflexivity].
  rewrite (mapM_cast_stored _ _ E). reflexivity.
Qed.

Lemma execute_pages_spec pages t :
  execute_pages pages t =
  if forallb statement_ok pages then Ok (upsert_all (concat pages) t)
  else Raise StorageError.
Proof.
  revert t. induction pages as [|p pages IH]; intros t; simpl.
  - reflexivity.
  - rewrite insert_do_update_spec.
    destruct (statement_ok p); simpl; [|reflexivity].
    rewrite IH, upsert_all_app. reflexivity.
Qed.

Lemma paginate_from_concat {A} n (page seq : list A) :
  concat (paginate_from n page seq) = rev page ++ seq.
Proof.
  revert page. induction seq as [|x seq IH]; intros page.
  - destruct page; simpl; rewrite ?app_nil_r; reflexivity.
  - change (paginate_from n page (x :: seq))
      with (if (length (x :: page) =? n)%nat
            then rev (x :: page) :: paginate_from n [] seq
            else paginate_from n (x :: page) seq).
    destruct (length (x :: page) =? n)%nat.
    + rewrite concat_cons, IH. simpl. rewrite <- !app_assoc. reflexivity.
    + rewrite IH. simpl. rewrite <- !app_assoc. reflexivity.
Qed.

Lemma paginate_concat {A} (seq : list A) n : concat (paginate seq n) = seq.
Proof. apply (paginate_from_concat n [] seq). Qed.

Definition batch_ok (rows : list (string * string * measurements)) (n : nat)
    : bool :=
  forallb statement_ok (paginate rows n).

Lemma execute_values_spec rows n t :
  execute_values rows n t =
  if batch_ok rows n then Ok (upsert_all rows t) else Raise StorageError.
Proof.
  unfold execute_values, batch_ok. rewrite execute_pages_spec.
  rewrite paginate_concat. reflexivity.
Qed.

Lemma do_nothing_keeps {K V} `{Countable K} (rows : list (K * V))
    (t : gmap K V) k v :
  t !! k = Some v -> foldl on_conflict_do_nothing t rows !! k = Some v.
Proof.
  revert t. induction rows as [|r rows IH]; intros t Hk; simpl; [exact Hk|].
  apply IH. unfold on_conflict_do_nothing.
  destruct (t !! r.1) eqn:E; [exact Hk|].
  rewrite lookup_insert_ne; [exact Hk|]. intros Heq. rewrite Heq in E. congruence.
Qed.

Lemma do_nothing_noop {K V} `{Countable K} (rows : list (K * V)) (t : gmap K V) :
  (forall r, r ∈ rows -> is_Some (t !! r.1)) ->
  foldl on_conflict_do_nothing t rows = t.
Proof.
  induction rows as [|r rows IH]; intros Hall; simpl; [reflexivity|].
  unfold on_conflict_do_nothing at 2.
  destruct (Hall r) as [v ->]; [apply elem_of_cons; left; reflexivity|].
  apply IH. intros r' Hr'. apply Hall. apply elem_of_cons. right. exact Hr'.
Qed.

Lemma do_nothing_has {K V} `{Countable K} (rows : list (K * V)) (t : gmap K V) r :
  r ∈ rows -> is_Some (foldl on_conflict_do_nothing t rows !! r.1).
Proof.
  revert t. induction rows as [|r0 rows IH]; intros t Hin; simpl.
  - apply elem_of_nil in Hin. contradiction.
  - apply elem_of_cons in Hin as [->|Hin]; [|apply IH; exact Hin].
    unfold on_conflict_do_nothing at 2. destruct (t !! r0.1) as [v|] eqn:E.
    + exists v. apply do_nothing_keeps. exact E.
    + exists r0.2. apply do_nothing_keeps. apply lookup_insert_eq.
Qed.

(** Replaying a DO NOTHING statement changes nothing. *)
Lemma do_nothing_replay {K V} `{Countable K} (rows : list (K * V)) (t : gmap K V) :
  foldl on_conflict_do_nothing (foldl on_conflict_do_nothing t rows) rows
  = foldl on_conflict_do_nothing t rows.
Proof. apply do_nothing_noop. intros r Hr. apply do_nothing_has. exact Hr. Qed.

Lemma upsert_all_replay rows t :
  upsert_all rows (upsert_all rows t) = upsert_all rows t.
Proof. apply upsert_replay. Qed.

End Upsert.

(** ** The batch script: what a run does to the store *)
Section StoreOfRun.
Import Storage Psycopg2 IngestScript.

(** The table is the table at the start with the committed batches
    upserted. *)
Definition store_follows_log (t0 : weather_table) (s : state) : Prop :=
  weather s = upsert_all (concat (executed s)) t0.

(** The same run state over another table at the start. *)
Definition rebase (t1 : weather_table) (s : state) : state :=
  mk_state (total_lines s) (upserts s) (skipped_bad_lines s) (batch s)
           (upsert_all (concat (executed s)) t1) (executed s) (conn_open s).

(** A computation of the script neither reads the table nor writes it
    otherwise than by committed batches. *)
Definition store_blind {A} (c : M state A) : Prop :=
  forall t0 t1 s, store_follows_log t0 s ->
    store_follows_log t0 (c s).2 /\ c (rebase t1 s) = ((c s).1, rebase t1 (c s).2).

Lemma store_blind_ret {A} (a : A) : store_blind (mret a).
Proof. intros t0 t1 s H. split; [exact H|reflexivity]. Qed.

Lemma store_blind_raise {A} e : store_blind (@raise state A e).
Proof. intros t0 t1 s H. split; [exact H|reflexivity]. Qed.

Lemma store_blind_bind {A B} (c : M state A) (k : A -> M state B) :
  store_blind c -> (forall a, store_blind (k a)) -> store_blind (c ≫= k).
Proof.
  intros Hc Hk t0 t1 s H. destruct (Hc t0 t1 s H) as [H1 H2].
  unfold mbind, M_bind. rewrite H2.
  destruct (c s) as [[a|e] s']; simpl in *.
  - apply Hk. exact H1.
  - split; [exact H1|reflexivity].
Qed.

Lemma store_blind_local (f : state -> state) :
  (forall s, weather (f s) = weather s /\ executed (f s) = executed s) ->
  (forall t1 s, f (rebase t1 s) = rebase t1 (f s)) ->
  store_blind (modify f).
Proof.
  intros Hf Hc t0 t1 s H. unfold modify, store_follows_log in *. simpl.
  destruct (Hf s) as [-> ->]. split; [exact H|]. rewrite Hc. reflexivity.
Qed.

Lemma store_blind_batch : store_blind (gets batch).
Proof. intros t0 t1 s H. split; [exact H|reflexivity]. Qed.

Lemma store_blind_flush : store_blind flush.
Proof.
  intros t0 t1 s H. unfold flush, store_follows_log in *. simpl.
  rewrite !execute_values_spec.
  destruct (batch_ok (batch s) 5000); simpl.
  - rewrite H, concat_app, !upsert_all_app. simpl. rewrite app_nil_r.
    split; [reflexivity|].
    unfold rebase. simpl. rewrite concat_app, !upsert_all_app. simpl.
    rewrite app_nil_r. reflexivity.
  - split; [exact H|reflexivity].
Qed.

Lemma store_blind_for_each {X} (xs : list X) (body : X -> M state unit) :
  (forall x, store_blind (body x)) -> store_blind (for_each xs body).
Proof.
  intros Hb. induction xs as [|x xs IH]; simpl.
  - apply store_blind_ret.
  - apply store_blind_bind; [apply Hb|intros _; exact IH].
Qed.

Lemma store_blind_on_line ce m sid line : store_blind (on_line ce m sid line).
Proof.
  unfold on_line. apply store_blind_bind.
  - apply store_blind_local; [split; reflexivity|reflexivity].
  - intros _. destruct (parse_line m sid line) as [[|r]|e].
    + apply store_blind_local; [split; reflexivity|reflexivity].
    + apply store_blind_bind.
      * apply store_blind_local; [split; reflexivity|reflexivity].
      * intros _. apply store_blind_bind; [apply store_blind_batch|].
        intros b. destruct (ce <=? _)%Z;
          [apply store_blind_flush|apply store_blind_ret].
    + apply store_blind_raise.
Qed.

Lemma store_blind_final_flush : store_blind final_flush.
Proof.
  unfold final_flush. apply store_blind_bind; [apply store_blind_batch|].
  intros [|r b]; [apply store_blind_ret|apply store_blind_flush].
Qed.

Lemma store_blind_ingest_files ce m files : store_blind (ingest_files ce m files).
Proof.
  unfold ingest_files. apply store_blind_bind.
  - apply store_blind_for_each. intros fp.
    apply store_blind_for_each. intros l. apply store_blind_on_line.
  - intros _. apply store_blind_final_flush.
Qed.

(** The part of [main] after the guards, from table [t]. *)
Definition load (ce : Z) (m : nat) (files : list (string * list string))
    (t : weather_table) : result unit * state :=
  try_finally (ingest_files ce m files) (set_conn false) (set_conn true (init t)).

Lemma load_store ce m files t :
  weather (load ce m files t).2 =
  upsert_all (concat (executed (load ce m files t).2)) t.
Proof.
  unfold load, try_finally.
  pose proof (store_blind_ingest_files ce m files t t (set_conn true (init t)))
    as [H _]; [reflexivity|].
  destruct (ingest_files ce m files (set_conn true (init t))) as [r s].
  exact H.
Qed.

Lemma load_log_independent ce m files t t' :
  executed (load ce m files t').2 = executed (load ce m files t).2.
Proof.
  unfold load, try_finally.
  pose proof (store_blind_ingest_files ce m files t t' (set_conn true (init t)))
    as [_ H]; [reflexivity|].
  change (rebase t' (set_conn true (init t))) with (set_conn true (init t')) in H.
  rewrite H. destruct (ingest_files ce m files (set_conn true (init t))) as [r s].
  reflexivity.
Qed.

Lemma load_twice ce m files t :
  weather (load ce m files (weather (load ce m files t).2)).2 =
  weather (load ce m files t).2.
Proof.
  rewrite (load_store ce m files (weather _)).
  rewrite (load_log_independent ce m files t).
  rewrite (load_store ce m files t).
  apply upsert_all_replay.
Qed.

Lemma main_unfold ce force m url wx t :
  IngestScript.main ce force m url wx t =
  if String.eqb (PyStr.strip url) "" then (Raise RuntimeError, init t)
  else if (0 <? size t)%nat && negb force then (Ok Skipped, init t)
  else match wx with
       | None => (Raise RuntimeError, init t)
       | Some files =>
           ((load ce m files t).1 ≫= fun _ => Ok Completed,
            (load ce m files t).2)
       end.
Proof.
  unfold IngestScript.main, load.
  destruct (String.eqb _ _); [reflexivity|].
  destruct (_ && _); [reflexivity|].
  destruct wx as [files|]; [|reflexivity].
  destruct (try_finally _ _ _) as [r s]. reflexivity.
Qed.

End StoreOfRun.

(** ** The batch script: lines, batches and counters *)
Section Batches.
Import Storage Psycopg2 IngestScript.
Variable COMMIT_EVERY : Z.
Variable max_str_digits : nat.

(** The row of an accepted line. *)
Definition accepted_row (p : string * string) : option row :=
  match parse_line max_str_digits p.1 p.2 with
  | Ok (Accepted r) => Some r
  | _ => None
  end.

Definition is_rejected (p : string * string) : bool :=
  match parse_line max_str_digits p.1 p.2 with
  | Ok Rejected => true
  | _ => false
  end.

(** The size at which the buffer is flushed: COMMIT_EVERY, and 1 when
    COMMIT_EVERY is not positive (the test [len(batch) >= COMMIT_EVERY]
    then holds after every append). *)
Definition flush_size : nat := Z.to_nat (Z.max 1 COMMIT_EVERY).

Lemma flush_size_pos : 0 < flush_size.
Proof. unfold flush_size. lia. Qed.

Lemma flush_test (n : nat) :
  n <= flush_size -> 0 < n ->
  (COMMIT_EVERY <=? Z.of_nat n)%Z = bool_decide (n = flush_size).
Proof.
  unfold flush_size. intros Hle Hpos.
  destruct (Z.leb_spec COMMIT_EVERY (Z.of_nat n));
    [rewrite bool_decide_eq_true_2|rewrite bool_decide_eq_false_2];
    try reflexivity; lia.
Qed.

(** The state of the loop after the lines [pre]. *)
Record loop_inv (pre : list (string * string)) (s : state) : Prop := {
  inv_total : total_lines s = length pre;
  inv_skipped : skipped_bad_lines s = length (filter (fun p => is_rejected p = true) pre);
  inv_rows : concat (executed s) ++ batch s = omap accepted_row pre;
  inv_upserts : upserts s = length (concat (executed s));
  inv_buffer : length (batch s) < flush_size;
  inv_full : Forall (fun b => length b = flush_size) (executed s);
  inv_split : length pre =
              length (omap accepted_row pre)
              + length (filter (fun p => is_rejected p = true) pre)
}.

Lemma loop_inv_start t b : loop_inv [] (set_conn b (init t)).
Proof.
  split; simpl; try reflexivity; [apply flush_size_pos|constructor].
Qed.

Lemma flush_ok s s' :
  flush s = (Ok tt, s') ->
  s' = mk_state (total_lines s) (upserts s + length (batch s))
                (skipped_bad_lines s) [] (weather s')
                (executed s ++ [batch s]) (conn_open s).
Proof.
  unfold flush. destruct (execute_values _ _ _); intros H; [|discriminate].
  injection H as <-. reflexivity.
Qed.

Lemma on_line_step pre p s s' :
  loop_inv pre s ->
  on_line COMMIT_EVERY max_str_digits p.1 p.2 s = (Ok tt, s') ->
  loop_inv (pre ++ [p]) s'.
Proof.
  intros [Ht Hs Hr Hu Hb Hf Hc] Hrun.
  unfold on_line, mbind, M_bind, modify, gets, raise in Hrun. simpl in Hrun.
  assert (Hacc : omap accepted_row (pre ++ [p]) =
                 omap accepted_row pre ++ from_option (fun r => [r]) [] (accepted_row p)).
  { rewrite omap_app. simpl. destruct (accepted_row p); reflexivity. }
  assert (Hrej : filter (fun p => is_rejected p = true) (pre ++ [p]) =
                 filter (fun p => is_rejected p = true) pre
                 ++ (if is_rejected p then [p] else [])).
  { rewrite filter_app. f_equal.
    destruct (is_rejected p) eqn:E;
      [rewrite filter_cons_True by exact E
      |rewrite filter_cons_False by (rewrite E; discriminate)];
      reflexivity. }
  destruct (parse_line max_str_digits p.1 p.2) as [[|r]|e] eqn:Hp;
    [| |discriminate].
  - (* a rejected line *)
    assert (Ha : accepted_row p = None)
      by (unfold accepted_row; rewrite Hp; reflexivity).
    assert (Hj : is_rejected p = true)
      by (unfold is_rejected; rewrite Hp; reflexivity).
    rewrite Ha in Hacc. rewrite Hj in Hrej. simpl in Hacc.
    rewrite app_nil_r in Hacc.
    injection Hrun as <-.
    split; simpl; rewrite ?Hacc, ?Hrej, ?length_app; simpl;
      try assumption; lia.
  - (* an accepted line *)
    assert (Ha : accepted_row p = Some r)
      by (unfold accepted_row; rewrite Hp; reflexivity).
    assert (Hj : is_rejected p = false)
      by (unfold is_rejected; rewrite Hp; reflexivity).
    rewrite Ha in Hacc. rewrite Hj in Hrej. simpl in Hacc.
    rewrite app_nil_r in Hrej.
    rewrite flush_test in Hrun by (rewrite length_app; simpl; lia).
    rewrite length_app in Hrun. simpl in Hrun.
    case_bool_decide as Hfull.
    + apply flush_ok in Hrun. simpl in Hrun. rewrite Hrun.
      split; simpl; rewrite ?Hacc, ?Hrej, ?concat_app; simpl;
        rewrite ?app_nil_r, ?length_app; simpl; try lia;
        first [ apply flush_size_pos
              | rewrite <- Hr, app_assoc; reflexivity
              | apply Forall_app; split; [exact Hf|];
                constructor; [|constructor]; rewrite length_app; exact Hfull ].
    + injection Hrun as <-.
      split; simpl; rewrite ?Hacc, ?Hrej, ?length_app; simpl;
        try assumption; try lia.
      rewrite <- Hr, app_assoc. reflexivity.
Qed.

(** The committed batches of a completed run: full batches, then at most
    one shorter, non-empty batch. *)
Definition batches_of (n : nat) {A} (log : list (list A)) : Prop :=
  exists full last,
    log = full ++ last /\ Forall (fun b => length b = n) full /\
    (last = [] \/ exists b, last = [b] /\ 0 < length b < n).

Lemma final_flush_step pre s s' :
  loop_inv pre s ->
  final_flush s = (Ok tt, s') ->
  total_lines s' = length pre /\
  skipped_bad_lines s' = length (filter (fun p => is_rejected p = true) pre) /\
  concat (executed s') = omap accepted_row pre /\
  upserts s' = length (omap accepted_row pre) /\
  batch s' = [] /\
  batches_of flush_size (executed s') /\
  length pre = upserts s' + skipped_bad_lines s' /\
  conn_open s' = conn_open s.
Proof.
  intros [Ht Hs Hr Hu Hb Hf Hc] Hrun.
  unfold final_flush, mbind, M_bind, gets in Hrun. simpl in Hrun.
  destruct (batch s) as [|r b] eqn:Eb.
  - injection Hrun as <-. rewrite app_nil_r in Hr.
    repeat split; try assumption; try congruence; try lia.
    + exists (executed s), []. rewrite app_nil_r. auto.
  - apply flush_ok in Hrun. rewrite Eb in Hrun. rewrite Hrun. simpl.
    rewrite concat_app. simpl. rewrite app_nil_r.
    repeat split; try assumption; try reflexivity.
    + rewrite <- Hr, length_app, Hu. reflexivity.
    + exists (executed s), [r :: b]. split; [reflexivity|]. split; [exact Hf|].
      right. exists (r :: b). simpl in *. split; [reflexivity|lia].
    + rewrite Hc, <- Hr, length_app, Hu, Hs. simpl. lia.
Qed.

(** A completed load. *)
Lemma load_completed files t s :
  load COMMIT_EVERY max_str_digits files t = (Ok tt, s) ->
  total_lines s = length (lines_of files) /\
  skipped_bad_lines s =
    length (filter (fun p => is_rejected p = true) (lines_of files)) /\
  concat (executed s) = omap accepted_row (lines_of files) /\
  upserts s = length (omap accepted_row (lines_of files)) /\
  batch s = [] /\
  batches_of flush_size (executed s) /\
  length (lines_of files) = upserts s + skipped_bad_lines s /\
  conn_open s = false.
Proof.
  unfold load, try_finally, ingest_files. intros H.
  unfold mbind at 1, M_bind at 1 in H.
  rewrite (for_each_files files (on_line COMMIT_EVERY max_str_digits)) in H.
  destruct (for_each (lines_of files) _ _) as [[[]|e] s1] eqn:Hloop;
    [|discriminate].
  destruct (final_flush s1) as [[[]|e] s2] eqn:Hfin; [|discriminate].
  injection H as <-.
  assert (Hinv : loop_inv (lines_of files) s1).
  { eapply (for_each_ok_ind loop_inv); [apply loop_inv_start| |exact Hloop].
    intros pre x s s' Hi Hx. eapply on_line_step; eassumption. }
  destruct (final_flush_step _ _ _ Hinv Hfin)
    as (H1 & H2 & H3 & H4 & H5 & H6 & H7 & H8).
  simpl. repeat split; assumption.
Qed.

End Batches.

(** ** The batch script: parsing and converting one line *)
Section Lines.
Import PyStr PyNum Storage IngestScript.
Variable max_str_digits : nat.

Lemma limit_inactive (n : nat) :
  max_str_digits = 0 \/ 640 <= max_str_digits -> n <= 640 ->
  (0 <? max_str_digits)%nat && (max_str_digits <? n)%nat = false.
Proof.
  intros [->|H] Hn; [reflexivity|].
  apply andb_false_iff. right. apply Nat.ltb_ge. lia.
Qed.

Lemma int_short (x : string) (ds : list Z) :
  max_str_digits = 0 \/ 640 <= max_str_digits ->
  scan_digits None (sign_and_body x).2 = Some ds -> length ds <= 640 ->
  int max_str_digits x =
  Some (if (sign_and_body x).1 then - digits_value ds else digits_value ds)%Z.
Proof.
  intros Hl Hs Hn. unfold int. rewrite Hs, (limit_inactive _ Hl Hn). reflexivity.
Qed.

Lemma parse_int_null (x : string) :
  strip x = ""%string \/ strip x = "-9999"%string
  \/ int max_str_digits (strip x) = None ->
  _parse_int max_str_digits x = None.
Proof.
  unfold _parse_int. intros [->|[->|H]]; [reflexivity|reflexivity|].
  rewrite H. destruct (_ || _); reflexivity.
Qed.

Lemma parse_int_value (x : string) (z : Z) :
  strip x <> ""%string -> strip x <> "-9999"%string ->
  int max_str_digits (strip x) = Some z ->
  _parse_int max_str_digits x = Some z.
Proof.
  unfold _parse_int. intros H1 H2 H.
  apply String.eqb_neq in H1, H2. rewrite H1, H2. exact H.
Qed.

(** A conversion yields a value or null, or raises [OverflowError]. *)
Lemma convert_temp_cases i :
  (exists v, convert_temp i = Ok v) \/ convert_temp i = Raise OverflowError.
Proof.
  destruct i as [z|]; simpl; [|left; eauto].
  unfold int_truediv. destruct (int_to_float z); simpl; [left; eauto|right; reflexivity].
Qed.

Lemma convert_precip_cases i :
  (exists v, convert_precip i = Ok v) \/ convert_precip i = Raise OverflowError.
Proof.
  destruct i as [z|]; simpl; [|left; eauto].
  unfold int_truediv. destruct (int_to_float z); simpl; [left; eauto|right; reflexivity].
Qed.

(** The fields of a line and its date field, as [main] computes them. *)
Definition parts_of (line : string) : list string :=
  split tab (rstrip_newline line).

Definition datestr_of (line : string) : string :=
  strip (nth 0 (parts_of line) ""%string).

(** The test of the two [continue] branches. *)
Definition malformed (line : string) : bool :=
  (length (parts_of line) <? 4)%nat
  || negb (len (datestr_of line) =? 8)%nat || negb (isdigit (datestr_of line)).

Lemma parse_line_malformed sid line :
  malformed line = true -> parse_line max_str_digits sid line = Ok Rejected.
Proof.
  unfold malformed, parse_line, datestr_of, parts_of. intros H.
  destruct (_ <? 4)%nat; [reflexivity|]. simpl in H. rewrite H. reflexivity.
Qed.

Lemma parse_line_wellformed sid line :
  malformed line = false ->
  (exists r, parse_line max_str_digits sid line = Ok (Accepted r)
             /\ r.1.1 = sid) \/
  parse_line max_str_digits sid line = Raise OverflowError.
Proof.
  unfold malformed, parse_line, datestr_of, parts_of. intros H.
  destruct (_ <? 4)%nat; [discriminate|]. simpl in H. rewrite H.
  unfold mbind, result_bind.
  destruct (convert_temp_cases
              (_parse_int max_str_digits (nth 1 (split tab (rstrip_newline line)) ""%string)))
    as [[v1 ->]| ->]; [|right; reflexivity].
  destruct (convert_temp_cases
              (_parse_int max_str_digits (nth 2 (split tab (rstrip_newline line)) ""%string)))
    as [[v2 ->]| ->]; [|right; reflexivity].
  destruct (convert_precip_cases
              (_parse_int max_str_digits (nth 3 (split tab (rstrip_newline line)) ""%string)))
    as [[v3 ->]| ->]; [|right; reflexivity].
  left. eexists. split; reflexivity.
Qed.

Lemma parse_line_rejected_iff sid line :
  parse_line max_str_digits sid line = Ok Rejected <-> malformed line = true.
Proof.
  split; [|apply parse_line_malformed].
  intros H. destruct (malformed line) eqn:E; [reflexivity|].
  destruct (parse_line_wellformed sid line E) as [(r & Hr & _)|Hr];
    rewrite Hr in H; discriminate.
Qed.

(** A raw field whose number, when it has one, is in the range of a
    float. *)
Definition fits_float (x : string) : Prop :=
  forall z, _parse_int max_str_digits x = Some z -> is_Some (int_to_float z).

(** The three measurement fields of a line. *)
Definition numbers_of (line : string) : list string :=
  [nth 1 (parts_of line) ""%string; nth 2 (parts_of line) ""%string;
   nth 3 (parts_of line) ""%string].

Lemma fits_float_dec x : fits_float x \/ ~ fits_float x.
Proof.
  unfold fits_float. destruct (_parse_int max_str_digits x) as [z|].
  - destruct (int_to_float z) as [f|] eqn:E.
    + left. intros z' [= <-]. rewrite E. eauto.
    + right. intros H. destruct (H z eq_refl) as [f Hf]. congruence.
  - left. intros z [=].
Qed.

Lemma convert_temp_fits x :
  fits_float x ->
  exists v, convert_temp (_parse_int max_str_digits x) = Ok v.
Proof.
  unfold fits_float. intros H.
  destruct (_parse_int max_str_digits x) as [z|]; simpl; [|eauto].
  destruct (H z eq_refl) as [f Hf]. unfold int_truediv. rewrite Hf. simpl. eauto.
Qed.

Lemma convert_precip_fits x :
  fits_float x ->
  exists v, convert_precip (_parse_int max_str_digits x) = Ok v.
Proof.
  unfold fits_float. intros H.
  destruct (_parse_int max_str_digits x) as [z|]; simpl; [|eauto].
  destruct (H z eq_refl) as [f Hf]. unfold int_truediv. rewrite Hf. simpl. eauto.
Qed.

Lemma convert_temp_too_large x :
  ~ fits_float x ->
  convert_temp (_parse_int max_str_digits x) = Raise OverflowError.
Proof.
  unfold fits_float. intros H.
  destruct (_parse_int max_str_digits x) as [z|]; simpl.
  - unfold int_truediv. destruct (int_to_float z) as [f|] eqn:E; [|reflexivity].
    exfalso. apply H. intros z' [= <-]. rewrite E. eauto.
  - exfalso. apply H. intros z [=].
Qed.

Lemma convert_precip_too_large x :
  ~ fits_float x ->
  convert_precip (_parse_int max_str_digits x) = Raise OverflowError.
Proof.
  unfold fits_float. intros H.
  destruct (_parse_int max_str_digits x) as [z|]; simpl.
  - unfold int_truediv. destruct (int_to_float z) as [f|] eqn:E; [|reflexivity].
    exfalso. apply H. intros z' [= <-]. rewrite E. eauto.
  - exfalso. apply H. intros z [=].
Qed.

(** A line that passes the two tests is accepted exactly when its three
    numbers fit a float, and makes the conversion raise otherwise. *)
Lemma parse_line_numbers sid line :
  malformed line = false ->
  (Forall fits_float (numbers_of line) ->
   exists r, parse_line max_str_digits sid line = Ok (Accepted r)
             /\ r.1.1 = sid)
  /\ (~ Forall fits_float (numbers_of line) ->
      parse_line max_str_digits sid line = Raise OverflowError).
Proof.
  unfold malformed, parse_line, numbers_of, datestr_of, parts_of. intros H.
  destruct (_ <? 4)%nat; [discriminate|]. simpl in H. rewrite H.
  unfold mbind, result_bind.
  set (x1 := nth 1 (split tab (rstrip_newline line)) ""%string).
  set (x2 := nth 2 (split tab (rstrip_newline line)) ""%string).
  set (x3 := nth 3 (split tab (rstrip_newline line)) ""%string).
  split.
  - intros Hall.
    apply Forall_cons in Hall as [H1 Hall].
    apply Forall_cons in Hall as [H2 Hall].
    apply Forall_cons in Hall as [H3 _].
    destruct (convert_temp_fits x1 H1) as [v1 ->].
    destruct (convert_temp_fits x2 H2) as [v2 ->].
    destruct (convert_precip_fits x3 H3) as [v3 ->].
    eexists. split; reflexivity.
  - intros Hall.
    destruct (fits_float_dec x1) as [H1|H1];
      [|rewrite (convert_temp_too_large x1 H1); reflexivity].
    destruct (convert_temp_fits x1 H1) as [v1 ->].
    destruct (fits_float_dec x2) as [H2|H2];
      [|rewrite (convert_temp_too_large x2 H2); reflexivity].
    destruct (convert_temp_fits x2 H2) as [v2 ->].
    destruct (fits_float_dec x3) as [H3|H3];
      [|rewrite (convert_precip_too_large x3 H3); reflexivity].
    exfalso. apply Hall. repeat constructor; assumption.
Qed.

End Lines.

(** A station line: the fields joined by tabs, with its newline. *)
Definition tsv_line (fields : list string) : string :=
  (String.concat (String PyStr.tab "") fields ++ String (ascii_of_N 10) "")%string.

(** The numeral 1 followed by [n] zeros. *)
Definition power_of_ten (n : nat) : string :=
  String "1" (string_of_list_ascii (repeat "0"%char n)).

(** ** Claims on the unit conversion and the line parser *)
Section ParserClaims.
Import PyStr PyNum Storage IngestScript.

(** C2 (as amended).  For every raw field [x], read after [strip]: the
    sentinel -9999, the empty string and a string [int()] rejects convert to
    null, for temperature and precipitation alike, without raising.  Every
    other string is an integer [z]; when [z] fits a float [f], the
    temperature is [f / 10.0] and the precipitation is [(f / 10.0) / 10.0].
    Raw 123 yields 12.3 degrees and raw 100 yields 1.0 cm.  The digit limit
    of the interpreter is taken as the interpreter allows it: none, or at
    least 640. *)
Theorem field_conversion (max_str_digits : nat)
    (limit_ok : max_str_digits = 0 \/ 640 <= max_str_digits) (x : string) :
  (strip x = ""%string \/ strip x = "-9999"%string
   \/ int max_str_digits (strip x) = None ->
   _parse_int max_str_digits x = None
   /\ convert_temp (_parse_int max_str_digits x) = Ok None
   /\ convert_precip (_parse_int max_str_digits x) = Ok None)
  /\ (forall z f,
        strip x <> ""%string -> strip x <> "-9999"%string ->
        int max_str_digits (strip x) = Some z -> int_to_float z = Some f ->
        convert_temp (_parse_int max_str_digits x)
          = Ok (Some (PrimFloat.div f 10))
        /\ convert_precip (_parse_int max_str_digits x)
          = Ok (Some (PrimFloat.div (PrimFloat.div f 10) 10)))
  /\ convert_temp (_parse_int max_str_digits "123") = Ok (Some 12.3%float)
  /\ convert_precip (_parse_int max_str_digits "100") = Ok (Some 1%float).
Proof.
  split; [|split; [|split]].
  - intros H. rewrite (parse_int_null _ _ H). repeat split; reflexivity.
  - intros z f H1 H2 Hz Hf. rewrite (parse_int_value _ _ _ H1 H2 Hz).
    unfold convert_temp, convert_precip, int_truediv. rewrite Hf.
    split; reflexivity.
  - rewrite (parse_int_value _ "123" 123%Z);
      [reflexivity|discriminate|discriminate|].
    change (strip "123") with "123"%string.
    rewrite (int_short _ "123" [1; 2; 3]%Z limit_ok); [reflexivity|reflexivity|].
    simpl. lia.
  - rewrite (parse_int_value _ "100" 100%Z);
      [reflexivity|discriminate|discriminate|].
    change (strip "100") with "100"%string.
    rewrite (int_short _ "100" [1; 0; 0]%Z limit_ok); [reflexivity|reflexivity|].
    simpl. lia.
Qed.

Lemma field_conversion_witness :
  (4300 = 0 \/ 640 <= 4300)
  /\ convert_temp (_parse_int 4300 "123") = Ok (Some 12.3%float)
  /\ convert_precip (_parse_int 4300 "100") = Ok (Some 1%float).
Proof.
  assert (L : 4300 = 0 \/ 640 <= 4300) by (right; lia).
  split; [exact L|].
  apply (field_conversion 4300 L "123"%string).
Defined.

(** C2 fails as stated.  The precipitation of raw 7 is [(7 / 10.0) / 10.0],
    which is not the float [7 / 100.0]; and a field holding the integer
    10^400 makes the conversion raise [OverflowError]. *)
Lemma precip_is_not_hundredths :
  convert_precip (_parse_int 4300 "7")
    = Ok (Some (PrimFloat.div (PrimFloat.div 7 10) 10))
  /\ PrimFloat.eqb (PrimFloat.div (PrimFloat.div 7 10) 10) (PrimFloat.div 7 100)
     = false
  /\ convert_precip (_parse_int 4300 "7") <> Ok (Some (PrimFloat.div 7 100))
  /\ _parse_int 4300 (power_of_ten 400) = Some (10 ^ 400)%Z
  /\ convert_temp (_parse_int 4300 (power_of_ten 400)) = Raise OverflowError.
Proof.
  split; [vm_compute; reflexivity|].
  split; [vm_compute; reflexivity|].
  split.
  - intros H.
    assert (E : match convert_precip (_parse_int 4300 "7") with
                | Ok (Some v) => PrimFloat.eqb v (PrimFloat.div 7 100)
                | _ => false
                end = true) by (rewrite H; vm_compute; reflexivity).
    vm_compute in E. discriminate.
  - split; vm_compute; reflexivity.
Qed.

(** C4 (as amended).  A line is rejected exactly when it has fewer than 4
    tab-separated fields or its first field, with surrounding whitespace
    stripped, is not 8 characters that [str.isdigit] accepts.  Every other
    line whose three numbers fit a float is accepted, with the station of
    its file; every other line with a number too large for a float makes
    the conversion raise [OverflowError].  A run that completes has counted
    every line read, once as accepted or once as rejected. *)
Theorem line_parser_rejects (max_str_digits : nat) :
  (forall sid line,
      parse_line max_str_digits sid line = Ok Rejected <->
      (length (parts_of line) < 4
       \/ len (datestr_of line) <> 8
       \/ isdigit (datestr_of line) = false))
  /\ (forall sid line,
        ~ (length (parts_of line) < 4
           \/ len (datestr_of line) <> 8
           \/ isdigit (datestr_of line) = false) ->
        (Forall (fits_float max_str_digits) (numbers_of line) ->
         exists r, parse_line max_str_digits sid line = Ok (Accepted r)
                   /\ r.1.1 = sid)
        /\ (~ Forall (fits_float max_str_digits) (numbers_of line) ->
            parse_line max_str_digits sid line = Raise OverflowError))
  /\ (forall ce force url files t s,
        main ce force max_str_digits url (Some files) t = (Ok Completed, s) ->
        total_lines s = length (lines_of files)
        /\ upserts s = length (omap (accepted_row max_str_digits) (lines_of files))
        /\ skipped_bad_lines s
           = length (filter (fun p => is_rejected max_str_digits p = true)
                            (lines_of files))
        /\ total_lines s = upserts s + skipped_bad_lines s).
Proof.
  assert (Hm : forall line,
             malformed line = true <->
             (length (parts_of line) < 4 \/ len (datestr_of line) <> 8
              \/ isdigit (datestr_of line) = false)).
  { intros line. unfold malformed.
    rewrite !orb_true_iff, !negb_true_iff, Nat.ltb_lt, Nat.eqb_neq. tauto. }
  split; [|split].
  - intros sid line. rewrite parse_line_rejected_iff. apply Hm.
  - intros sid line H. apply parse_line_numbers.
    destruct (malformed line) eqn:E; [|reflexivity].
    exfalso. apply H, Hm, E.
  - intros ce force url files t s H. rewrite main_unfold in H.
    destruct (String.eqb _ _); [discriminate|].
    destruct (_ && _); [discriminate|].
    destruct (load ce max_str_digits files t) as [[[]|e] s1] eqn:Hl;
      simpl in H; [|discriminate].
    injection H as <-.
    destruct (load_completed _ _ _ _ _ Hl) as (H1 & H2 & H3 & H4 & H5 & H6 & H7 & H8).
    repeat split; try assumption. congruence.
Qed.

Lemma line_parser_rejects_witness :
  let files := [("USC00110072"%string,
                 [tsv_line ["19850101"; "123"; "-9999"; "100"];
                  tsv_line ["1985010"; "1"; "2"; "3"];
                  tsv_line ["19850103"; "5"; "6"]])] in
  let large := tsv_line ["19850101"; power_of_ten 400; "2"; "3"] in
  (exists s,
    main 20000 false 4300 "postgresql://db/weather" (Some files) ∅
      = (Ok Completed, s)
    /\ total_lines s = 3 /\ upserts s = 1 /\ skipped_bad_lines s = 2
    /\ total_lines s = upserts s + skipped_bad_lines s)
  /\ (exists r,
        parse_line 4300 "USC00110072"
                   (tsv_line ["19850101"; "123"; "-9999"; "100"])
        = Ok (Accepted r) /\ r.1.1 = "USC00110072"%string)
  /\ ~ Forall (fits_float 4300) (numbers_of large)
  /\ parse_line 4300 "USC00110072" large = Raise OverflowError.
Proof.
  intros files large.
  pose proof (line_parser_rejects 4300) as (_ & Hnum & Hrun).
  assert (Hlarge : ~ Forall (fits_float 4300) (numbers_of large)).
  { intros H. apply Forall_cons in H as [H _].
    destruct (H (10 ^ 400)%Z ltac:(vm_compute; reflexivity)) as [f Hf].
    vm_compute in Hf. discriminate. }
  split; [|split; [|split; [exact Hlarge|]]].
  - eexists. split; [vm_compute; reflexivity|].
    split; [reflexivity|]. split; [reflexivity|]. split; [reflexivity|].
    refine (proj2 (proj2 (proj2
      (Hrun 20000%Z false "postgresql://db/weather"%string files ∅ _ _)))).
    vm_compute. reflexivity.
  - apply Hnum.
    + vm_compute. intros [H|[H|H]]; [lia|congruence|discriminate].
    + repeat constructor; intros z Hz; vm_compute in Hz;
        first [discriminate | injection Hz as <-; vm_compute; eauto].
  - apply Hnum; [|exact Hlarge].
    vm_compute. intros [H|[H|H]]; [lia|congruence|discriminate].
Defined.

(** C4 fails as stated.  The first field of the line below is a blank
    followed by 8 digits, 9 characters in all, so it is not exactly 8
    decimal digits; the line has 4 fields and is accepted. *)
Lemma padded_date_is_accepted :
  let line := tsv_line [" 19850101"; "123"; "-9999"; "100"] in
  length (parts_of line) = 4
  /\ nth 0 (parts_of line) ""%string = " 19850101"%string
  /\ len (nth 0 (parts_of line) ""%string) = 9
  /\ parse_line 4300 "USC00110072" line
     = Ok (Accepted ("USC00110072"%string, "1985-01-01"%string,
                     {| max_temp_c := Some 12.3%float;
                        min_temp_c := None;
                        precip_cm := Some 1%float |})).
Proof. vm_compute. repeat split; reflexivity. Qed.

End ParserClaims.

(** ** Claims on the batch writer and on re-running *)
Section WriterClaims.
Import PyStr PyNum Storage Psycopg2 IngestScript.

Lemma main_completed ce force m url wx t s :
  main ce force m url wx t = (Ok Completed, s) ->
  exists files, wx = Some files /\ load ce m files t = (Ok tt, s).
Proof.
  rewrite main_unfold.
  destruct (String.eqb _ _); [discriminate|].
  destruct (_ && _); [discriminate|].
  destruct wx as [files|]; [|discriminate].
  destruct (load ce m files t) as [[[]|e] s1] eqn:Hl; simpl; [|discriminate].
  intros H. injection H as <-. exists files. split; [reflexivity|exact Hl].
Qed.

(** C9.  In a run that completes, the committed batches are the accepted
    rows in order, cut into batches of exactly the flush size (COMMIT_EVERY
    when it is at least 1) followed by at most one shorter, non-empty
    batch: every accepted row is written exactly once.  The buffer is empty
    at the end, the count of upserts is the number of accepted lines, and
    the store is the store at the start with these batches upserted. *)
Theorem batch_writer_flushes (COMMIT_EVERY : Z) (FORCE_INGEST : bool)
    (max_str_digits : nat) (database_url : string)
    (files : list (string * list string)) (t : weather_table) (s : state) :
  main COMMIT_EVERY FORCE_INGEST max_str_digits database_url (Some files) t
    = (Ok Completed, s) ->
  batches_of (flush_size COMMIT_EVERY) (executed s)
  /\ (1 <= COMMIT_EVERY -> Z.of_nat (flush_size COMMIT_EVERY) = COMMIT_EVERY)%Z
  /\ concat (executed s) = omap (accepted_row max_str_digits) (lines_of files)
  /\ batch s = []
  /\ upserts s = length (omap (accepted_row max_str_digits) (lines_of files))
  /\ weather s = upsert_all (concat (executed s)) t.
Proof.
  intros H. apply main_completed in H as (files' & Hf & Hl).
  injection Hf as <-.
  destruct (load_completed _ _ _ _ _ Hl) as (H1 & H2 & H3 & H4 & H5 & H6 & H7 & H8).
  repeat split; try assumption.
  - unfold flush_size. lia.
  - pose proof (load_store COMMIT_EVERY max_str_digits files t) as Hs.
    rewrite Hl in Hs. exact Hs.
Qed.

Lemma batch_writer_flushes_witness :
  let files := [("USC00110072"%string,
                 [tsv_line ["19850101"; "123"; "-9999"; "100"];
                  tsv_line ["19850102"; "1"; "2"; "3"];
                  tsv_line ["1985010"; "1"; "2"; "3"];
                  tsv_line ["19850103"; "5"; "6"; "7"]])] in
  let run := main 2 false 4300 "postgresql://db/weather" (Some files) ∅ in
  run = (Ok Completed, run.2)
  /\ length <$> executed run.2 = [2; 1]
  /\ batches_of (flush_size 2) (executed run.2)
  /\ batch run.2 = []
  /\ upserts run.2 = 3.
Proof.
  intros files run.
  assert (E : run = (Ok Completed, run.2)) by (vm_compute; reflexivity).
  split; [exact E|]. split; [vm_compute; reflexivity|].
  pose proof (batch_writer_flushes 2 false 4300 "postgresql://db/weather"
                files ∅ run.2 E)
    as (Hb & _ & _ & Hbatch & Hu & _).
  split; [exact Hb|]. split; [exact Hbatch|vm_compute; reflexivity].
Defined.

(** C9 fails as stated, for every sequence of input lines.  Two lines of
    one file with the same date are both accepted and reach the store in
    one statement, which the store refuses: the run raises, no row is
    written, the count of upserts is 0 and the buffer still holds the two
    rows. *)
Lemma same_date_twice_aborts :
  let files := [("USC00110072"%string,
                 [tsv_line ["19850101"; "123"; "-9999"; "100"];
                  tsv_line ["19850101"; "1"; "2"; "3"]])] in
  let run := main 20000 false 4300 "postgresql://db/weather" (Some files) ∅ in
  length (omap (accepted_row 4300) (lines_of files)) = 2
  /\ run.1 = Raise StorageError
  /\ upserts run.2 = 0
  /\ executed run.2 = []
  /\ length (batch run.2) = 2
  /\ weather run.2 = ∅.
Proof. vm_compute. repeat split; reflexivity. Qed.


(** C7.  Running the script again over the same configuration and files,
    from the store the first run left, leaves the table with the same rows
    and the same values: the second run is skipped by the guard, or it
    replays the committed batches of the first, which changes nothing.  The
    same holds of the statement of the application,
    [INSERT ... ON CONFLICT DO NOTHING], replayed on its own result. *)
Theorem rerun_is_idempotent (COMMIT_EVERY : Z) (FORCE_INGEST : bool)
    (max_str_digits : nat) (database_url : string)
    (wx_dir : option (list (string * list string))) (t : weather_table) :
  let run := main COMMIT_EVERY FORCE_INGEST max_str_digits database_url wx_dir in
  weather (run (weather (run t).2)).2 = weather (run t).2
  /\ size (weather (run (weather (run t).2)).2) = size (weather (run t).2)
  /\ (forall (rows : list ((string * date) * measurements)) (t' : weather_table),
        foldl on_conflict_do_nothing (foldl on_conflict_do_nothing t' rows) rows
        = foldl on_conflict_do_nothing t' rows).
Proof.
  intros run.
  assert (G : weather (run (weather (run t).2)).2 = weather (run t).2).
  { unfold run. rewrite !main_unfold.
    destruct (String.eqb _ _); [reflexivity|].
    destruct ((0 <? size t)%nat && negb FORCE_INGEST) eqn:Hg.
    - simpl. rewrite Hg. reflexivity.
    - destruct wx_dir as [files|].
      + cbn [snd fst].
        destruct ((0 <? size (weather (load COMMIT_EVERY max_str_digits files t).2))%nat
                  && negb FORCE_INGEST); cbn [snd fst].
        * reflexivity.
        * apply load_twice.
      + simpl. rewrite Hg. reflexivity. }
  split; [exact G|]. split; [rewrite G; reflexivity|].
  apply do_nothing_replay.
Qed.

End WriterClaims.

(** ** The start-up ingestion of the application *)
Section StartupRuns.
Import Storage AppIngest.

(** The calls a run issued. *)
Definition new_events (w w' : world) : list event :=
  drop (length (trace w)) (trace w').

(** The marker row of the ingestion, if any. *)
Definition marker_of (d : db) : option bool :=
  ingestion_state d !! INGESTION_KEY.

End StartupRuns.

(** Symbolic execution of a start-up run: unfold the calls, then follow
    every answer of the environment. *)
Ltac run_app :=
  unfold AppIngest.run_startup_ingestion, AppIngest.startup_body, try_finally,
    try_except_reraise, AppIngest.ensure_tables_exist,
    AppIngest.already_ingested, AppIngest.ingest_weather,
    AppIngest.ingest_stats, AppIngest.mark_ingested, AppIngest.commit,
    AppIngest.round_trip, AppIngest.SessionLocal, mbind, M_bind, mret, M_ret,
    gets, modify, AppIngest.rollback, AppIngest.close, AppIngest.log,
    AppIngest.set_working, marker_of;
  cbn.

Ltac fault_split :=
  match goal with
  | |- context [if AppIngest.faults ?w ?n then _ else _] =>
      destruct (AppIngest.faults w n) eqn:?; cbn
  | |- context [match AppIngest.ingestion_state ?d !! ?k with _ => _ end] =>
      destruct (AppIngest.ingestion_state d !! k) as [[|]|] eqn:?; cbn
  | |- context [if ?a && ?b then _ else _] => destruct (a && b) eqn:?; cbn
  end.

Ltac events :=
  unfold new_events; cbn; rewrite <- ?app_assoc, ?drop_app_length; cbn.

Ltac ends_with :=
  solve [ eexists []; reflexivity | eexists [_]; reflexivity
        | eexists [_; _]; reflexivity | eexists [_; _; _]; reflexivity
        | eexists [_; _; _; _]; reflexivity
        | eexists [_; _; _; _; _]; reflexivity
        | eexists [_; _; _; _; _; _]; reflexivity
        | eexists [_; _; _; _; _; _; _]; reflexivity
        | eexists [_; _; _; _; _; _; _; _]; reflexivity
        | eexists [_; _; _; _; _; _; _; _; _]; reflexivity
        | eexists [_; _; _; _; _; _; _; _; _; _]; reflexivity
        | eexists [_; _; _; _; _; _; _; _; _; _; _]; reflexivity
        | eexists [_; _; _; _; _; _; _; _; _; _; _; _]; reflexivity ].

Ltac leaf :=
  repeat match goal with
         | |- _ /\ _ => split
         | |- forall _, _ => intro
         | |- _ -> _ => intro
         end;
  try discriminate; try congruence;
  try solve [ apply lookup_insert_eq | do 2 eexists; reflexivity ];
  try (events;
       first [ reflexivity
             | ends_with
             | apply list_elem_of_In; simpl; tauto
             | rewrite list_elem_of_In; simpl; intuition discriminate ]).

(** The round trip at place [i] of the trace did not fail: a round trip
    whose answer is known to be good stands there. *)
Ltac fault_free i Hf :=
  match goal with
  | H : AppIngest.faults _ ?n = false |- _ =>
      let E := fresh in
      assert (E : i = n) by (rewrite ?length_app; cbn [length]; lia);
      rewrite E in Hf; rewrite H in Hf; discriminate Hf
  end.

(** Follow the calls of a run one by one, up to the place [i]. *)
Ltac each_event w i Hle Hlook Hf :=
  rewrite <- ?app_assoc in Hlook; cbn [app] in Hlook;
  rewrite lookup_app_r in Hlook by exact Hle;
  let k := fresh "k" in
  let Ek := fresh "Ek" in
  remember (i - length (AppIngest.trace w)) as k eqn:Ek;
  do 14 (try (destruct k as [|k];
              [ cbn in Hlook; injection Hlook as <-;
                first [ congruence | fault_free i Hf ]
              | cbn in Hlook ]));
  try discriminate Hlook.

(** The round trip that failed in a run that raised: the calls before it,
    and the rollback and the close after it. *)
Ltac failed_hyp :=
  match goal with
  | H : AppIngest.faults _ ?n = true |- AppIngest.faults _ ?m = true =>
      replace m with n by (rewrite ?length_app; cbn [length]; lia); exact H
  end.

Ltac failed_after evs0 :=
  let evs := eval cbn in evs0 in
  exists evs; do 2 eexists;
  split; [reflexivity|];
  split; [failed_hyp|];
  split; [discriminate|];
  split; [discriminate|];
  first [ left; reflexivity | right; reflexivity ].

Ltac failed_round_trip :=
  events;
  match goal with
  | |- exists evs ev rest, ?l = _ /\ _ =>
      first [ failed_after (take 0 l) | failed_after (take 1 l)
            | failed_after (take 2 l) | failed_after (take 3 l)
            | failed_after (take 4 l) | failed_after (take 5 l)
            | failed_after (take 6 l) | failed_after (take 7 l)
            | failed_after (take 8 l) | failed_after (take 9 l)
            | failed_after (take 10 l) | failed_after (take 11 l)
            | failed_after (take 12 l) ]
  end.

Section StartupClaims.
Import Storage AppIngest.

(** A round trip of the run that the environment fails makes the run
    raise. *)
Lemma startup_fault_raises
    (load_weather_rows : list ((string * date) * measurements))
    (load_stats_rows : list ((string * Z) * yearly)) (w : world) :
  let res := run_startup_ingestion load_weather_rows load_stats_rows w in
  forall i ev, length (trace w) <= i -> trace res.2 !! i = Some ev ->
    faults w i = true -> ev <> Rollback -> ev <> Close ->
    res.1 = Raise StorageError.
Proof.
  destruct load_weather_rows, load_stats_rows; run_app; repeat fault_split.
  all: intros i ev Hle Hlook Hf Hr Hc.
  all: try reflexivity.
  all: each_event w i Hle Hlook Hf.
Qed.

(** A run raises only at a round trip that failed, and issues nothing
    after it but the rollback and the close. *)
Lemma startup_raise_has_fault
    (load_weather_rows : list ((string * date) * measurements))
    (load_stats_rows : list ((string * Z) * yearly)) (w : world) :
  let res := run_startup_ingestion load_weather_rows load_stats_rows w in
  forall e, res.1 = Raise e ->
    exists evs ev rest,
      new_events w res.2 = evs ++ ev :: rest
      /\ faults w (length (trace w) + length evs) = true
      /\ ev <> Rollback /\ ev <> Close
      /\ (rest = [] \/ rest = [Rollback; Close]).
Proof.
  destruct load_weather_rows, load_stats_rows; run_app; repeat fault_split.
  all: intros e He; try discriminate He.
  all: failed_round_trip.
Qed.

Lemma startup_exits
    (load_weather_rows : list ((string * date) * measurements))
    (load_stats_rows : list ((string * Z) * yearly)) (w : world) :
  let res := run_startup_ingestion load_weather_rows load_stats_rows w in
  (forall e, res.1 = Raise e ->
     e = StorageError
     /\ ingestion_state (committed res.2) = ingestion_state (committed w)
     /\ (faults w (length (trace w)) = false ->
         (exists evs, new_events w res.2 = evs ++ [Rollback; Close])
         /\ working res.2 = committed res.2))
  /\ (faults w (length (trace w)) = false ->
      session res.2 = Some false
      /\ exists evs, new_events w res.2 = evs ++ [Close])
  /\ (forall n m, res.1 = Ok (Done n m) ->
      marker_of (committed res.2) = Some true
      /\ Rollback ∉ new_events w res.2)
  /\ (ingestion_state (committed res.2) <> ingestion_state (committed w) ->
      exists n m, res.1 = Ok (Done n m)).
Proof.
  destruct load_weather_rows, load_stats_rows; run_app; repeat fault_split.
  all: leaf.
Qed.

(** C8.  Whatever round trips fail.  A round trip of the run that fails
    (the tables step, a query of the guard, an insert, the merge of the
    marker or a commit) makes the run raise the storage error to the
    caller; and a run raises only so, issuing nothing after the failed
    round trip but the rollback and the close.  When a run raises, the
    marker table is as it was; once the tables step has passed and the
    session is open, the last two calls of the run are the rollback and the
    close, and nothing is left in flight.  On every exit path with a
    session the last call is the close.  A run that reports success has
    committed the marker as completed and has not rolled back; and the
    marker table changes only in a run that reports success. *)
Theorem startup_error_handling
    (load_weather_rows : list ((string * date) * measurements))
    (load_stats_rows : list ((string * Z) * yearly)) (w : world) :
  let res := run_startup_ingestion load_weather_rows load_stats_rows w in
  (forall i ev, length (trace w) <= i -> trace res.2 !! i = Some ev ->
     faults w i = true -> ev <> Rollback -> ev <> Close ->
     res.1 = Raise StorageError)
  /\ (forall e, res.1 = Raise e ->
        exists evs ev rest,
          new_events w res.2 = evs ++ ev :: rest
          /\ faults w (length (trace w) + length evs) = true
          /\ ev <> Rollback /\ ev <> Close
          /\ (rest = [] \/ rest = [Rollback; Close]))
  /\ (forall e, res.1 = Raise e ->
     e = StorageError
     /\ ingestion_state (committed res.2) = ingestion_state (committed w)
     /\ (faults w (length (trace w)) = false ->
         (exists evs, new_events w res.2 = evs ++ [Rollback; Close])
         /\ working res.2 = committed res.2))
  /\ (faults w (length (trace w)) = false ->
      session res.2 = Some false
      /\ exists evs, new_events w res.2 = evs ++ [Close])
  /\ (forall n m, res.1 = Ok (Done n m) ->
      marker_of (committed res.2) = Some true
      /\ Rollback ∉ new_events w res.2)
  /\ (ingestion_state (committed res.2) <> ingestion_state (committed w) ->
      exists n m, res.1 = Ok (Done n m)).
Proof.
  intros res.
  split; [apply startup_fault_raises|].
  split; [apply startup_raise_has_fault|].
  apply startup_exits.
Qed.

(** A world with an empty store, no session yet, and an environment whose
    [n]-th round trip fails when [fails n]. *)
Definition fresh_world (fails : nat -> bool) (force : bool) (d : db) : world :=
  mk_world d d None [] fails force.

Definition no_fault (n : nat) : bool := false.

Definition one_row : weather_table :=
  {[ ("USC00110072"%string, (1985, 1, 1)%Z) :=
       {| max_temp_c := None; min_temp_c := None; precip_cm := None |} ]}.

Definition one_stat : stats_table :=
  {[ ("USC00110072"%string, 1985%Z) :=
       {| avg_max_temp_c := None; avg_min_temp_c := None;
          total_precip_cm := None |} ]}.

Lemma startup_error_handling_witness :
  let rows := [(("USC00110072"%string, (1985, 1, 1)%Z),
                {| max_temp_c := Some 12.3%float; min_temp_c := None;
                   precip_cm := Some 1%float |})] in
  let w := fresh_world (fun n => Nat.eqb n 5) false (mk_db ∅ ∅ ∅) in
  let res := run_startup_ingestion rows [] w in
  trace res.2 = [CreateAll; GetMarker; CountWeather; CountStats;
                 InsertWeather; Commit; Rollback; Close]
  /\ faults w 5 = true
  /\ res.1 = Raise StorageError
  /\ ingestion_state (committed res.2) = ingestion_state (committed w)
  /\ weather (committed res.2) = ∅
  /\ working res.2 = committed res.2
  /\ session res.2 = Some false.
Proof.
  intros rows w res.
  pose proof (startup_error_handling rows [] w) as (H1 & _ & H2 & H3 & _).
  assert (E : res.1 = Raise StorageError).
  { apply (H1 5 Commit); [simpl; lia|reflexivity|reflexivity
                          |discriminate|discriminate]. }
  split; [reflexivity|]. split; [reflexivity|]. split; [exact E|].
  destruct (H2 _ E) as (_ & Hm & Hr).
  split; [exact Hm|]. split; [reflexivity|].
  split; [apply Hr; reflexivity|]. apply H3. reflexivity.
Defined.

(** C10.  With a marker row whose value is false the guard answers that
    ingestion is not done after the one marker lookup, without a count
    query; and a run whose round trips all succeed then ingests and sets the
    marker, whatever rows the tables hold. *)
Theorem unfinished_marker_runs
    (load_weather_rows : list ((string * date) * measurements))
    (load_stats_rows : list ((string * Z) * yearly)) (w : world) :
  (marker_of (working w) = Some false ->
   faults w (length (trace w)) = false ->
   already_ingested w = (Ok false, log GetMarker w))
  /\ (marker_of (committed w) = Some false ->
      (forall n, faults w n = false) ->
      let res := run_startup_ingestion load_weather_rows load_stats_rows w in
      (exists n m, res.1 = Ok (Done n m))
      /\ (CountWeather ∉ new_events w res.2)
      /\ (CountStats ∉ new_events w res.2)
      /\ marker_of (committed res.2) = Some true).
Proof.
  split.
  - unfold marker_of. intros Hm Hf. run_app. rewrite Hf. cbn.
    rewrite Hm. reflexivity.
  - unfold marker_of. intros Hm Hf.
    destruct load_weather_rows, load_stats_rows; run_app; repeat fault_split;
      try match goal with
          | H : faults _ _ = true |- _ => rewrite Hf in H; discriminate
          end;
      try congruence; leaf.
Qed.

Lemma unfinished_marker_runs_witness :
  let w := fresh_world no_fault false
             (mk_db one_row one_stat {[ INGESTION_KEY := false ]}) in
  size (weather (committed w)) = 1 /\ size (weather_stats (committed w)) = 1
  /\ already_ingested w = (Ok false, log GetMarker w)
  /\ (run_startup_ingestion [] [] w).1 = Ok (Done 0 0).
Proof.
  intros w. split; [reflexivity|]. split; [reflexivity|].
  split; [|reflexivity].
  apply (proj1 (unfinished_marker_runs [] [] w)); reflexivity.
Defined.

End StartupClaims.

(** ** Claims on the guards and on the conflict policies *)
Section GuardClaims.
Import PyStr Storage Psycopg2 IngestScript AppIngest.

(** C5 (as amended).  The force flag being unset: the script, which keeps
    no marker, skips exactly when the table of observations holds at least
    one row; the guard of the application, when there is no marker row,
    answers that ingestion is done exactly when both the table of
    observations and the table of yearly statistics hold at least one
    row. *)
Theorem guard_without_marker :
  (forall ce m url wx t,
      strip url <> ""%string ->
      (IngestScript.main ce false m url wx t).1 = Ok IngestScript.Skipped
      <-> 0 < size t)
  /\ (forall w,
        marker_of (working w) = None ->
        (forall n, faults w n = false) ->
        exists b,
          (already_ingested w).1 = Ok b
          /\ (b = true <->
              0 < size (AppIngest.weather (working w))
              /\ 0 < size (weather_stats (working w)))
          /\ new_events w (already_ingested w).2
             = [GetMarker; CountWeather; CountStats]).
Proof.
  split.
  - intros ce m url wx t Hurl. rewrite main_unfold.
    apply String.eqb_neq in Hurl. rewrite Hurl.
    rewrite andb_true_r.
    destruct (0 <? size t)%nat eqn:E.
    + apply Nat.ltb_lt in E. simpl. tauto.
    + apply Nat.ltb_ge in E. split; [|lia].
      destruct wx as [files|]; simpl; [|discriminate].
      destruct (load ce m files t).1; simpl; discriminate.
  - unfold marker_of. intros w Hm Hf. run_app. rewrite Hf. cbn.
    rewrite Hm. cbn. repeat (rewrite Hf; cbn).
    eexists. split; [reflexivity|]. split.
    + destruct (size (AppIngest.weather (working w))),
        (size (weather_stats (working w))); simpl;
        intuition (try lia; try discriminate).
    + events. reflexivity.
Qed.

Lemma guard_without_marker_witness :
  let w := fresh_world no_fault false (mk_db one_row one_stat ∅) in
  (IngestScript.main 20000 false 4300 "postgresql://db/weather" None one_row).1
    = Ok IngestScript.Skipped
  /\ (already_ingested w).1 = Ok true.
Proof.
  intros w. split.
  - apply (proj1 guard_without_marker 20000%Z 4300 "postgresql://db/weather"%string
                 None one_row); [discriminate|].
    vm_compute. lia.
  - destruct (proj2 guard_without_marker w) as (b & Hb & Hiff & _);
      [reflexivity|reflexivity|].
    rewrite Hb. f_equal. apply Hiff. split; vm_compute; lia.
Defined.

(** C5 fails as stated.  There is no marker row, the table of observations
    holds a row and the table of yearly statistics is empty: the guard of
    the application answers that ingestion is not done, and the run
    ingests. *)
Lemma observations_alone_do_not_skip :
  let w := fresh_world no_fault false (mk_db one_row ∅ ∅) in
  marker_of (committed w) = None
  /\ size (AppIngest.weather (committed w)) = 1
  /\ (already_ingested w).1 = Ok false
  /\ (run_startup_ingestion [] [] w).1 = Ok (Done 0 0).
Proof. vm_compute. repeat split; reflexivity. Qed.

(** C6 (as amended).  In the script a set force flag makes the run pass
    the guard whatever the table holds: it is never skipped, and with its
    configuration in place it loads the files.  The start-up ingestion of
    the application reads no force flag: with the marker row completed it
    skips, whatever FORCE_INGEST is in the environment. *)
Theorem force_override :
  (forall ce m url wx t,
      (IngestScript.main ce true m url wx t).1 <> Ok IngestScript.Skipped
      /\ (forall files,
            strip url <> ""%string -> wx = Some files ->
            IngestScript.main ce true m url wx t
            = ((load ce m files t).1 ≫= fun _ => Ok Completed,
               (load ce m files t).2)))
  /\ (forall lw ls w,
        marker_of (committed w) = Some true ->
        (forall n, faults w n = false) ->
        (run_startup_ingestion lw ls w).1 = Ok AppIngest.Skipped
        /\ committed (run_startup_ingestion lw ls w).2 = committed w).
Proof.
  split.
  - intros ce m url wx t. split.
    + rewrite main_unfold. rewrite andb_false_r.
      destruct (String.eqb _ _); [discriminate|].
      destruct wx as [files|]; simpl; [|discriminate].
      destruct (load ce m files t).1; simpl; discriminate.
    + intros files Hurl ->. rewrite main_unfold.
      apply String.eqb_neq in Hurl. rewrite Hurl, andb_false_r. reflexivity.
  - unfold marker_of. intros lw ls w Hm Hf.
    run_app. repeat (rewrite Hf; cbn). rewrite Hm. cbn. split; reflexivity.
Qed.

Lemma force_override_witness :
  (IngestScript.main 20000 true 4300 "postgresql://db/weather" (Some []) one_row).1
    = Ok Completed
  /\ (run_startup_ingestion [] []
        (fresh_world no_fault false (mk_db one_row one_stat {[ INGESTION_KEY := true ]}))).1
     = Ok AppIngest.Skipped.
Proof.
  split.
  - rewrite (proj2 (proj1 force_override 20000%Z 4300 "postgresql://db/weather"%string
                          (Some []) one_row) []); [reflexivity|discriminate|reflexivity].
  - apply (proj2 force_override); reflexivity.
Defined.

(** C6 fails as stated.  FORCE_INGEST is set in the environment and the
    marker row is completed: the start-up run skips. *)
Lemma forced_startup_still_skips :
  let w := fresh_world no_fault true
             (mk_db one_row one_stat {[ INGESTION_KEY := true ]}) in
  environ_FORCE_INGEST w = true
  /\ (run_startup_ingestion [] [] w).1 = Ok AppIngest.Skipped
  /\ trace (run_startup_ingestion [] [] w).2 = [CreateAll; GetMarker; Close].
Proof. vm_compute. repeat split; reflexivity. Qed.

(** C1 (as amended).  A successful upsert statement of the script leaves
    every row of the statement stored under its key with exactly the three
    incoming values, whether the key was there before or not, and leaves
    the other keys alone.  The insert of the application does nothing on a
    conflict: a key that is there keeps its values. *)
Theorem conflict_policies :
  (forall page t t' sid d dd v,
      insert_do_update page t = Ok t' ->
      (sid, d, v) ∈ page -> date_in d = Some dd ->
      t' !! (sid, dd) = Some v)
  /\ (forall page t t' k,
        insert_do_update page t = Ok t' ->
        k ∉ (stored_rows page).*1 -> t' !! k = t !! k)
  /\ (forall (rows : list ((string * date) * measurements)) (t : weather_table) k old,
        t !! k = Some old ->
        foldl on_conflict_do_nothing t rows !! k = Some old)
  /\ (forall rows w k old,
        AppIngest.weather (working w) !! k = Some old ->
        AppIngest.weather (working (ingest_weather rows w).2) !! k = Some old).
Proof.
  split; [|split; [|split]].
  - intros page t t' sid d dd v H Hin Hd.
    unfold insert_do_update in H.
    destruct (mapM cast_row page) as [rows|] eqn:E; [|discriminate].
    case_bool_decide as Hnd; [|discriminate]. injection H as <-.
    apply upsert_lookup_row; [exact Hnd|].
    rewrite <- (mapM_cast_stored _ _ E). unfold stored_rows.
    apply list_elem_of_omap. exists (sid, d, v). split; [exact Hin|].
    unfold cast_row. simpl. rewrite Hd. reflexivity.
  - intros page t t' k H Hk. rewrite insert_do_update_spec in H.
    destruct (statement_ok page); [|discriminate]. injection H as <-.
    apply upsert_lookup_other. exact Hk.
  - intros rows t k old H. apply do_nothing_keeps. exact H.
  - intros rows w k old H. destruct rows as [|r rows]; [exact H|].
    run_app. repeat fault_split; try exact H;
      apply (do_nothing_keeps (r :: rows)); exact H.
Qed.

Definition measured : measurements :=
  {| max_temp_c := Some 12.3%float; min_temp_c := Some 1%float;
     precip_cm := Some 0.5%float |}.

Definition blank : measurements :=
  {| max_temp_c := None; min_temp_c := None; precip_cm := None |}.

Lemma conflict_policies_witness :
  let key := ("USC00110072"%string, (1985, 1, 1)%Z) in
  let page := [("USC00110072"%string, "1985-01-01"%string, measured)] in
  one_row !! key = Some blank
  /\ exists t', insert_do_update page one_row = Ok t'
                /\ t' !! key = Some measured.
Proof.
  intros key page. split; [reflexivity|].
  assert (E : insert_do_update page one_row = Ok (upsert_all page one_row)).
  { rewrite insert_do_update_spec.
    replace (statement_ok page) with true by (vm_compute; reflexivity).
    reflexivity. }
  exists (upsert_all page one_row). split; [exact E|].
  apply (proj1 conflict_policies page one_row _ "USC00110072"%string
               "1985-01-01"%string (1985, 1, 1)%Z measured E).
  - apply list_elem_of_here.
  - vm_compute. reflexivity.
Defined.

(** C1 fails as stated.  The insert of the application meets a row with
    the same station and date: the statement succeeds, inserts nothing, and
    the stored row keeps its three null values instead of the incoming
    ones. *)
Lemma insert_skips_existing_row :
  let key := ("USC00110072"%string, (1985, 1, 1)%Z) in
  let w := fresh_world no_fault false (mk_db one_row ∅ ∅) in
  let res := ingest_weather [(key, measured)] w in
  AppIngest.weather (committed w) !! key = Some blank
  /\ res.1 = Ok 0
  /\ trace res.2 = [InsertWeather; Commit]
  /\ AppIngest.weather (committed res.2) !! key = Some blank
  /\ blank <> measured.
Proof.
  intros key w res. repeat split; try (vm_compute; reflexivity).
  discriminate.
Qed.

End GuardClaims.

(** ** Claims on the yearly aggregation *)
Section Aggregation.
Import Storage ComputeStats.

(** The aggregates in the words of the specification: the values that are
    not null, their arithmetic mean (their float sum from zero, divided by
    their number), their sum; null when there is none.  The sums add the
    values in the order of the list. *)
Definition non_null (vs : list (option float)) : list float := omap id vs.



Definition sum_of_non_null (vs : list (option float)) : option float :=
  match non_null vs with
  | [] => None
  | x :: xs => Some (fold_left PrimFloat.add xs x)
  end.

(** A running sum, from [s] over [xs], that becomes infinite from finite
    values. *)
Fixpoint sum_overflows (s : float) (xs : list float) : bool :=
  match xs with
  | [] => false
  | x :: xs' =>
      (is_infinity (PrimFloat.add s x) && negb (is_infinity s)
       && negb (is_infinity x))
      || sum_overflows (PrimFloat.add s x) xs'
  end.




(** *** The count of [AVG] is the number of inputs *)





Lemma float8_accum_raises t x e :
  float8_accum t x = Raise e -> e = StorageError.
Proof.
  unfold float8_accum.
  repeat match goal with
         | |- context [if ?b then _ else _] => destruct b
         end; intros H; inversion H; reflexivity.
Qed.



Lemma sql_avg_raises vs e : sql_avg vs = Raise e -> e = StorageError.
Proof.
  unfold sql_avg. generalize (mk_accum 0 0 0).
  induction vs as [|[x|] vs IH]; intros t; simpl.
  - discriminate.
  - destruct (float8_accum t x) as [t'|e'] eqn:E; [apply IH|].
    intros [= <-]. apply (float8_accum_raises _ _ _ E).
  - apply IH.
Qed.

(** *** The sum *)

Lemma sum_from_some s vs :
  sum_from (Some s) vs =
  if sum_overflows s (non_null vs) then Raise StorageError
  else Ok (Some (fold_left PrimFloat.add (non_null vs) s)).
Proof.
  unfold non_null. revert s.
  induction vs as [|[x|] vs IH]; intros s; simpl.
  - reflexivity.
  - unfold float8_pl.
    destruct (is_infinity (PrimFloat.add s x) && negb (is_infinity s)
              && negb (is_infinity x)); simpl; [reflexivity|apply IH].
  - apply IH.
Qed.

Lemma sql_sum_cases vs :
  sql_sum vs =
  match non_null vs with
  | [] => Ok None
  | x :: xs => if sum_overflows x xs then Raise StorageError
               else Ok (sum_of_non_null vs)
  end.
Proof.
  unfold sql_sum, sum_of_non_null, non_null.
  induction vs as [|[x|] vs IH]; simpl.
  - reflexivity.
  - apply sum_from_some.
  - exact IH.
Qed.


Lemma sql_sum_raises vs e : sql_sum vs = Raise e -> e = StorageError.
Proof.
  rewrite sql_sum_cases.
  destruct (non_null vs) as [|x xs]; [discriminate|].
  destruct (sum_overflows x xs); congruence.
Qed.

(** *** Null *)





(** *** Groups *)


Lemma elem_of_groups (rows : list ((string * date) * measurements)) g :
  g ∈ remove_dups ((group_key ∘ fst) <$> rows) <->
  exists r, r ∈ rows /\ group_key r.1 = g.
Proof.
  rewrite elem_of_remove_dups, list_elem_of_fmap. split.
  - intros (r & -> & Hin). eauto.
  - intros (r & Hin & <-). eauto.
Qed.

Lemma scan_lookup (t : weather_table) rows k v :
  scan_of t rows -> (k, v) ∈ rows <-> t !! k = Some v.
Proof.
  unfold scan_of. intros ->. apply elem_of_map_to_list.
Qed.






(** *** The statement as a whole *)

Lemma mapM_result_ok {A B} (f : A -> result B) (l : list A) (ys : list B) :
  mapM f l = Ok ys <-> Forall2 (fun x y => f x = Ok y) l ys.
Proof.
  revert ys. induction l as [|x l IH]; intros ys; cbn.
  - split; [intros [= <-]; constructor|intros H; inversion H; reflexivity].
  - destruct (f x) as [y|e] eqn:E; cbn.
    + destruct (mapM f l) as [ys'|e'] eqn:E'; cbn.
      * split.
        -- intros [= <-]. constructor; [exact E|]. apply IH. reflexivity.
        -- intros H. inversion H; subst.
           match goal with H1 : f x = Ok _ |- _ => rewrite E in H1; injection H1 as -> end.
           match goal with H2 : Forall2 _ l _ |- _ => apply IH in H2; injection H2 as -> end.
           reflexivity.
      * split; [discriminate|]. intros H. inversion H; subst.
        match goal with H2 : Forall2 _ l _ |- _ => apply IH in H2; discriminate end.
    + split; [discriminate|]. intros H. inversion H; subst. congruence.
Qed.

Lemma mapM_result_raise {A B} (f : A -> result B) (l : list A) e :
  mapM f l = Raise e -> exists x, x ∈ l /\ f x = Raise e.
Proof.
  induction l as [|x l IH]; cbn; [discriminate|].
  destruct (f x) as [y|e'] eqn:E; cbn.
  - destruct (mapM f l) as [ys'|e''] eqn:E'; cbn; [discriminate|].
    intros [= <-]. destruct (IH eq_refl) as (x' & Hin & Hx').
    exists x'. split; [apply elem_of_cons; right; exact Hin|exact Hx'].
  - intros [= <-]. exists x. split; [apply elem_of_cons; left; reflexivity|exact E].
Qed.

Lemma aggregate_ok rows g r :
  aggregate rows g = Ok r ->
  r.1 = g
  /\ sql_avg ((max_temp_c ∘ snd) <$> members rows g) = Ok (avg_max_temp_c r.2)
  /\ sql_avg ((min_temp_c ∘ snd) <$> members rows g) = Ok (avg_min_temp_c r.2)
  /\ sql_sum ((precip_cm ∘ snd) <$> members rows g) = Ok (total_precip_cm r.2).
Proof.
  unfold aggregate.
  destruct (sql_avg ((max_temp_c ∘ snd) <$> members rows g)) as [a|]; [|discriminate].
  destruct (sql_avg ((min_temp_c ∘ snd) <$> members rows g)) as [b|]; [|discriminate].
  destruct (sql_sum ((precip_cm ∘ snd) <$> members rows g)) as [c|]; [|discriminate].
  cbn. intros [= <-]. cbn. repeat split.
Qed.

Lemma aggregate_raises rows g e :
  aggregate rows g = Raise e -> e = StorageError.
Proof.
  unfold aggregate.
  destruct (sql_avg ((max_temp_c ∘ snd) <$> members rows g)) as [a|e1] eqn:E1;
    [|cbn; intros [= <-]; apply (sql_avg_raises _ _ E1)].
  destruct (sql_avg ((min_temp_c ∘ snd) <$> members rows g)) as [b|e2] eqn:E2;
    [|cbn; intros [= <-]; apply (sql_avg_raises _ _ E2)].
  destruct (sql_sum ((precip_cm ∘ snd) <$> members rows g)) as [c|e3] eqn:E3;
    [|cbn; intros [= <-]; apply (sql_sum_raises _ _ E3)].
  cbn. discriminate.
Qed.

Lemma query_raises rows e : query rows = Raise e -> e = StorageError.
Proof.
  unfold query. intros H. apply mapM_result_raise in H as (g & _ & Hg).
  apply (aggregate_raises _ _ _ Hg).
Qed.

Lemma query_keys rows results :
  query rows = Ok results ->
  results.*1 = remove_dups ((group_key ∘ fst) <$> rows).
Proof.
  unfold query. intros H. apply mapM_result_ok in H.
  induction H as [|g r gs rs Hg _ IH]; [reflexivity|].
  cbn. rewrite IH. apply aggregate_ok in Hg as [-> _]. reflexivity.
Qed.


Definition two_days : weather_table :=
  <[ ("USC00110072"%string, (1985, 1, 1)%Z) :=
       {| max_temp_c := Some 10%float; min_temp_c := Some 0%float;
          precip_cm := None |} ]>
  (<[ ("USC00110072"%string, (1985, 1, 2)%Z) :=
       {| max_temp_c := None; min_temp_c := Some 5%float;
          precip_cm := None |} ]> ∅).












End Aggregation.


(** * Further properties of the batch script *)

(** ** One line *)
Section ExtraLines.
Import PyStr PyNum Storage IngestScript.

(** Whether the [n] integers from [z] on all have a float. *)
Fixpoint all_fit_from (n : nat) (z : Z) : bool :=
  match n with
  | O => true
  | S n' =>
      match int_to_float z with
      | Some _ => all_fit_from n' (z + 1)
      | None => false
      end
  end.

Lemma all_fit_from_spec (n : nat) (z0 z : Z) :
  all_fit_from n z0 = true -> (z0 <= z < z0 + Z.of_nat n)%Z ->
  exists f, int_to_float z = Some f.
Proof.
  revert z0. induction n as [|n IH]; intros z0 H Hz; [lia|].
  simpl in H. destruct (int_to_float z0) as [f|] eqn:E; [|discriminate].
  destruct (decide (z = z0)) as [->|Hne]; [eauto|].
  apply (IH (z0 + 1)%Z H). lia.
Qed.

(** Every integer of at most five digits has a float: checked value by
    value. *)
Lemma five_digits_fit (z : Z) :
  (-99999 <= z <= 99999)%Z -> exists f, int_to_float z = Some f.
Proof.
  intros Hz.
  apply (all_fit_from_spec (Z.to_nat 199999) (-99999)); [|lia].
  vm_compute. reflexivity.
Qed.

(** A field is small when it is null or an integer of at most five
    digits. *)
Definition small_field (max_str_digits : nat) (x : string) : Prop :=
  forall z, _parse_int max_str_digits x = Some z -> (-99999 <= z <= 99999)%Z.

Lemma convert_temp_small m x :
  small_field m x -> exists v, convert_temp (_parse_int m x) = Ok v.
Proof.
  intros H. destruct (_parse_int m x) as [z|] eqn:E; [|simpl; eauto].
  destruct (five_digits_fit z (H z E)) as [f Hf].
  unfold convert_temp, int_truediv. rewrite Hf. simpl. eauto.
Qed.

Lemma convert_precip_small m x :
  small_field m x -> exists v, convert_precip (_parse_int m x) = Ok v.
Proof.
  intros H. destruct (_parse_int m x) as [z|] eqn:E; [|simpl; eauto].
  destruct (five_digits_fit z (H z E)) as [f Hf].
  unfold convert_precip, int_truediv. rewrite Hf. simpl. eauto.
Qed.

(** X1.  A line with at least 4 fields and a well-shaped date whose three
    numeric fields are null or integers of at most five digits is accepted:
    its conversion does not raise. *)
Theorem small_measurements_are_accepted (max_str_digits : nat)
    (station_id line : string) :
  malformed line = false ->
  small_field max_str_digits (nth 1 (parts_of line) ""%string) ->
  small_field max_str_digits (nth 2 (parts_of line) ""%string) ->
  small_field max_str_digits (nth 3 (parts_of line) ""%string) ->
  exists r, parse_line max_str_digits station_id line = Ok (Accepted r).
Proof.
  unfold malformed, datestr_of, parts_of. intros Hm H1 H2 H3.
  unfold parse_line.
  destruct (_ <? 4)%nat; [discriminate|]. simpl in Hm. rewrite Hm.
  destruct (convert_temp_small _ _ H1) as [v1 E1].
  destruct (convert_temp_small _ _ H2) as [v2 E2].
  destruct (convert_precip_small _ _ H3) as [v3 E3].
  unfold parts_of in E1, E2, E3. rewrite E1, E2, E3. simpl. eauto.
Qed.

Lemma small_measurements_are_accepted_witness :
  exists r,
    parse_line 4300 "USC00110072"
      (tsv_line ["19850101"; "-99999"; "-9999"; "99999"]) = Ok (Accepted r).
Proof.
  apply (small_measurements_are_accepted 4300 "USC00110072"%string).
  - vm_compute. reflexivity.
  - intros z Hz. vm_compute in Hz. injection Hz as <-. lia.
  - intros z Hz. vm_compute in Hz. discriminate.
  - intros z Hz. vm_compute in Hz. injection Hz as <-. lia.
Defined.

(** X2.  Only the first four fields of a line count, and each only up to
    surrounding whitespace: two lines with at least 4 fields whose first
    four fields agree after [strip] are parsed to the same result. *)
Theorem padding_and_extra_fields_are_ignored (max_str_digits : nat)
    (station_id l1 l2 : string) :
  4 <= length (parts_of l1) -> 4 <= length (parts_of l2) ->
  (forall i, i < 4 ->
     strip (nth i (parts_of l1) ""%string) = strip (nth i (parts_of l2) ""%string)) ->
  parse_line max_str_digits station_id l1
  = parse_line max_str_digits station_id l2.
Proof.
  unfold parts_of. intros Hl1 Hl2 H.
  unfold parse_line, _parse_int.
  apply Nat.ltb_ge in Hl1, Hl2. rewrite Hl1, Hl2.
  rewrite (H 0), (H 1), (H 2), (H 3) by lia. reflexivity.
Qed.

Lemma padding_and_extra_fields_are_ignored_witness :
  parse_line 4300 "USC00110072"
    (tsv_line [" 19850101 "; " 123"; "-9999 "; "100"; "flag"; "note"])
  = parse_line 4300 "USC00110072"
      (tsv_line ["19850101"; "123"; "-9999"; "100"]).
Proof.
  apply padding_and_extra_fields_are_ignored.
  - vm_compute. lia.
  - vm_compute. lia.
  - intros i Hi.
    destruct i as [|[|[|[|i]]]]; [reflexivity|reflexivity|reflexivity|reflexivity|lia].
Defined.

(** The date text of a row. *)
Definition dashed (datestr : string) : string :=
  (slice 0 4 datestr ++ "-" ++ slice 4 6 datestr ++ "-" ++ slice 6 8 datestr)%string.

Lemma dashed_injective (d1 d2 : string) :
  len d1 = 8 -> len d2 = 8 -> dashed d1 = dashed d2 -> d1 = d2.
Proof.
  intros H1 H2 H.
  do 9 (destruct d1 as [|? d1]; try discriminate).
  do 9 (destruct d2 as [|? d2]; try discriminate).
  cbv in H. injection H as -> -> -> -> -> -> -> ->. reflexivity.
Qed.

Lemma parse_line_accepted m sid line r :
  parse_line m sid line = Ok (Accepted r) ->
  malformed line = false /\ r.1.1 = sid /\ r.1.2 = dashed (datestr_of line).
Proof.
  intros H. destruct (malformed line) eqn:E.
  - rewrite (parse_line_malformed m sid line E) in H. discriminate.
  - split; [reflexivity|]. revert H.
    unfold malformed, datestr_of, parts_of in E. unfold parse_line.
    destruct (_ <? 4)%nat; [discriminate|]. simpl in E. rewrite E.
    unfold mbind, result_bind.
    destruct (convert_temp _); [|discriminate].
    destruct (convert_temp _); [|discriminate].
    destruct (convert_precip _); [|discriminate].
    intros H. injection H as <-. split; reflexivity.
Qed.

(** X3.  Two accepted lines give rows with the same key (station and date
    text) exactly when they come from files with the same stem and their
    date fields are equal after [strip]: rows of different stations, or of
    different dates, never overwrite each other. *)
Theorem rows_collide_on_station_and_date (max_str_digits : nat)
    (sid1 sid2 l1 l2 : string) (r1 r2 : row) :
  parse_line max_str_digits sid1 l1 = Ok (Accepted r1) ->
  parse_line max_str_digits sid2 l2 = Ok (Accepted r2) ->
  (r1.1 = r2.1 <-> sid1 = sid2 /\ datestr_of l1 = datestr_of l2).
Proof.
  intros H1 H2.
  apply parse_line_accepted in H1 as (M1 & S1 & D1).
  apply parse_line_accepted in H2 as (M2 & S2 & D2).
  unfold malformed in M1, M2.
  apply orb_false_iff in M1 as [M1 _]. apply orb_false_iff in M1 as [_ M1].
  apply orb_false_iff in M2 as [M2 _]. apply orb_false_iff in M2 as [_ M2].
  apply negb_false_iff, Nat.eqb_eq in M1, M2.
  destruct r1 as [[s1 d1] v1], r2 as [[s2 d2] v2]. simpl in *. subst.
  split.
  - intros H. injection H as Hs Hd. split; [exact Hs|].
    apply dashed_injective; assumption.
  - intros [-> ->]. reflexivity.
Qed.

Lemma rows_collide_on_station_and_date_witness :
  let l1 := tsv_line ["19850101"; "123"; "-9999"; "100"] in
  let l2 := tsv_line [" 19850101"; "7"; "8"; "9"] in
  exists r1 r2,
    parse_line 4300 "USC00110072" l1 = Ok (Accepted r1)
    /\ parse_line 4300 "USC00110072" l2 = Ok (Accepted r2)
    /\ r1.1 = r2.1.
Proof.
  intros l1 l2.
  destruct (parse_line 4300 "USC00110072" l1) as [[|r1]|] eqn:E1;
    try (vm_compute in E1; discriminate).
  destruct (parse_line 4300 "USC00110072" l2) as [[|r2]|] eqn:E2;
    try (vm_compute in E2; discriminate).
  exists r1, r2. split; [reflexivity|]. split; [reflexivity|].
  apply (rows_collide_on_station_and_date 4300 _ _ l1 l2 r1 r2 E1 E2).
  split; reflexivity.
Defined.

End ExtraLines.

(** ** A whole run of the script *)
Section ExtraRuns.
Import PyStr PyNum Storage Psycopg2 IngestScript.

(** A loop that raises does so in one iteration, after the iterations
    before it completed. *)
Lemma for_each_raise_inv {S X} (P : list X -> S -> Prop) (body : X -> M S unit)
    (xs : list X) (s0 s1 : S) (e : exn) :
  P [] s0 ->
  (forall pre x s s', P pre s -> body x s = (Ok tt, s') -> P (pre ++ [x]) s') ->
  for_each xs body s0 = (Raise e, s1) ->
  exists pre x suf s,
    xs = pre ++ x :: suf /\ P pre s /\ body x s = (Raise e, s1).
Proof.
  intros H0 Hstep.
  enough (G : forall done s, P done s -> for_each xs body s = (Raise e, s1) ->
              exists pre x suf s',
                done ++ xs = pre ++ x :: suf /\ P pre s'
                /\ body x s' = (Raise e, s1)) by (apply (G [] s0 H0)).
  induction xs as [|x xs IH]; intros done s Hp Hrun; simpl in Hrun.
  - discriminate.
  - unfold mbind, M_bind in Hrun.
    destruct (body x s) as [[[]|e'] s'] eqn:Hb.
    + destruct (IH (done ++ [x]) s' (Hstep _ _ _ _ Hp Hb) Hrun)
        as (pre & y & suf & s2 & Heq & Hp2 & Hy).
      exists pre, y, suf, s2. rewrite <- app_assoc in Heq. auto.
    + injection Hrun as -> ->. exists done, x, xs, s. auto.
Qed.

Lemma flush_raise s e s' : flush s = (Raise e, s') -> s' = s.
Proof.
  unfold flush. destruct (execute_values _ _ _); intros H; [discriminate|].
  injection H as _ <-. reflexivity.
Qed.

Lemma omap_app_prefix {A B} (f : A -> option B) (l1 l2 : list A) :
  omap f l1 `prefix_of` omap f (l1 ++ l2).
Proof. rewrite omap_app. apply prefix_app_r. reflexivity. Qed.

(** The state in which an iteration raised. *)
Lemma on_line_raise ce m pre p s e s1 :
  loop_inv ce m pre s ->
  on_line ce m p.1 p.2 s = (Raise e, s1) ->
  executed s1 = executed s /\ upserts s1 = upserts s
  /\ conn_open s1 = conn_open s /\ weather s1 = weather s
  /\ concat (executed s1) `prefix_of` omap (accepted_row m) (pre ++ [p]).
Proof.
  intros [Ht Hs Hr Hu Hb Hf Hc] Hrun.
  assert (Hpre : concat (executed s) `prefix_of` omap (accepted_row m) (pre ++ [p])).
  { etransitivity; [|apply omap_app_prefix]. rewrite <- Hr. apply prefix_app_r.
    reflexivity. }
  unfold on_line, mbind, M_bind, modify, gets, raise in Hrun. simpl in Hrun.
  destruct (parse_line m p.1 p.2) as [[|r]|e'] eqn:Hp.
  - discriminate.
  - destruct (_ <=? _)%Z; [|discriminate].
    apply flush_raise in Hrun. subst s1. simpl. auto.
  - injection Hrun as _ <-. simpl. auto.
Qed.

(** Whatever way the load ends. *)
Lemma load_any ce m files t r s :
  load ce m files t = (r, s) ->
  conn_open s = false
  /\ upserts s = length (concat (executed s))
  /\ concat (executed s) `prefix_of` omap (accepted_row m) (lines_of files)
  /\ (forall e, r = Raise e ->
        Forall (fun b => length b = flush_size ce) (executed s)).
Proof.
  unfold load, try_finally, ingest_files. intros H.
  unfold mbind at 1, M_bind at 1 in H.
  rewrite (for_each_files files (on_line ce m)) in H.
  destruct (for_each (lines_of files) _ _) as [[[]|e] s1] eqn:Hloop.
  - (* the loop completed *)
    assert (Hinv : loop_inv ce m (lines_of files) s1).
    { eapply (for_each_ok_ind (loop_inv ce m));
        [apply loop_inv_start| |exact Hloop].
      intros pre x s0 s' Hi Hx. eapply on_line_step; eassumption. }
    destruct (final_flush s1) as [[[]|e] s2] eqn:Hfin;
      injection H as <- <-; unfold set_conn; cbn [executed upserts conn_open].
    + destruct (final_flush_step _ _ _ _ _ Hinv Hfin)
        as (_ & _ & H3 & H4 & _).
      rewrite H3. split; [reflexivity|]. split; [exact H4|].
      split; [reflexivity|]. intros e He. discriminate.
    + destruct Hinv as [Ht Hs Hr Hu Hb Hf Hc].
      unfold final_flush, mbind, M_bind, gets in Hfin. simpl in Hfin.
      destruct (batch s1); [discriminate|].
      apply flush_raise in Hfin. subst s2.
      split; [reflexivity|]. split; [exact Hu|]. split; [|intros _ _; exact Hf].
      rewrite <- Hr. apply prefix_app_r. reflexivity.
  - (* an iteration raised *)
    injection H as <- <-. unfold set_conn; cbn [executed upserts conn_open].
    destruct (for_each_raise_inv (loop_inv ce m)
                _ _ _ _ _ (loop_inv_start _ _ _ _)
                (fun pre x s0 s' Hi Hx => on_line_step _ _ pre x s0 s' Hi Hx)
                Hloop)
      as (pre & x & suf & s0 & Hxs & Hinv & Hx).
    destruct (on_line_raise _ _ _ _ _ _ _ Hinv Hx) as (E1 & E2 & E3 & E4 & E5).
    destruct Hinv as [Ht Hs Hr Hu Hb Hf Hc].
    rewrite E1, E2. split; [reflexivity|]. split; [exact Hu|]. split.
    + rewrite <- E1. etransitivity; [exact E5|].
      rewrite Hxs. replace (pre ++ x :: suf) with ((pre ++ [x]) ++ suf)
        by (rewrite <- app_assoc; reflexivity).
      apply omap_app_prefix.
    + intros _ _. exact Hf.
Qed.

(** X4.  Whatever way a run over the files ends, the connection is closed,
    the count of upserts is the number of rows in the committed batches,
    and these rows are the first accepted rows of the input, in order; the
    table is the table at the start with exactly these batches upserted.  A
    run that raises has committed full batches only: what was committed
    before the error stays, and nothing else of the run is stored. *)
Theorem aborted_run_keeps_committed_batches (COMMIT_EVERY : Z)
    (FORCE_INGEST : bool) (max_str_digits : nat) (database_url : string)
    (files : list (string * list string)) (t : weather_table) :
  let res := main COMMIT_EVERY FORCE_INGEST max_str_digits database_url
                  (Some files) t in
  conn_open res.2 = false
  /\ weather res.2 = upsert_all (concat (executed res.2)) t
  /\ upserts res.2 = length (concat (executed res.2))
  /\ concat (executed res.2)
       `prefix_of` omap (accepted_row max_str_digits) (lines_of files)
  /\ (forall e, res.1 = Raise e ->
        Forall (fun b => length b = flush_size COMMIT_EVERY) (executed res.2)).
Proof.
  intros res. unfold res. clear res. rewrite main_unfold.
  destruct (String.eqb _ _);
    [simpl; repeat split; [apply prefix_nil|constructor]|].
  destruct (_ && _);
    [simpl; repeat split; [apply prefix_nil|constructor]|].
  cbn [fst snd].
  destruct (load COMMIT_EVERY max_str_digits files t) as [r s] eqn:Hl.
  destruct (load_any _ _ _ _ _ _ Hl) as (H1 & H2 & H3 & H4).
  pose proof (load_store COMMIT_EVERY max_str_digits files t) as Hs.
  rewrite Hl in Hs. cbn [fst snd] in *.
  repeat split; try assumption.
  intros e He. destruct r as [[]|e0]; [discriminate|].
  apply (H4 e0). reflexivity.
Qed.

Lemma aborted_run_keeps_committed_batches_witness :
  let files := [("USC00110072"%string,
                 [tsv_line ["19850101"; "123"; "-9999"; "100"];
                  tsv_line ["19851301"; "1"; "2"; "3"];
                  tsv_line ["19850103"; "5"; "6"; "7"]])] in
  let res := main 1 false 4300 "postgresql://db/weather" (Some files) ∅ in
  res.1 = Raise StorageError
  /\ length <$> executed res.2 = [1]
  /\ size (weather res.2) = 1
  /\ conn_open res.2 = false
  /\ upserts res.2 = length (concat (executed res.2)).
Proof.
  intros files res.
  split; [vm_compute; reflexivity|]. split; [vm_compute; reflexivity|].
  split; [vm_compute; reflexivity|].
  pose proof (aborted_run_keeps_committed_batches 1 false 4300
                "postgresql://db/weather" files ∅) as (H1 & _ & H3 & _).
  split; [exact H1|exact H3].
Defined.

(** The last value written under a key by a list of rows. *)
Definition last_write {K V} `{EqDecision K} (k : K) (rows : list (K * V))
    : option V :=
  snd <$> last (filter (fun r => r.1 = k) rows).

Lemma upsert_lookup_last (rows : list ((string * date) * measurements))
    (t : weather_table) k :
  foldl on_conflict_do_update t rows !! k =
  match last_write k rows with
  | Some v => Some v
  | None => t !! k
  end.
Proof.
  unfold last_write.
  induction rows as [|r rows IH] using rev_ind; [reflexivity|].
  rewrite foldl_snoc, on_conflict_do_update_insert, filter_app.
  destruct (decide (r.1 = k)) as [Heq|Hne].
  - rewrite filter_cons_True by exact Heq.
    rewrite filter_nil, last_snoc. simpl.
    rewrite Heq. apply lookup_insert_eq.
  - rewrite filter_cons_False by exact Hne.
    rewrite filter_nil, app_nil_r.
    rewrite lookup_insert_ne by exact Hne. exact IH.
Qed.

(** X5.  After a run, however it ends, every key of the table holds the
    values of the last committed row of the run that carries this key, and
    a key that no committed row carries holds what it held before: the
    last write wins, and the run deletes no row. *)
Theorem last_committed_write_wins (COMMIT_EVERY : Z) (FORCE_INGEST : bool)
    (max_str_digits : nat) (database_url : string)
    (wx_dir : option (list (string * list string))) (t : weather_table)
    (k : string * date) :
  let res := main COMMIT_EVERY FORCE_INGEST max_str_digits database_url
                  wx_dir t in
  weather res.2 !! k =
    match last_write k (stored_rows (concat (executed res.2))) with
    | Some v => Some v
    | None => t !! k
    end
  /\ (is_Some (t !! k) -> is_Some (weather res.2 !! k)).
Proof.
  intros res.
  assert (H : weather res.2 = upsert_all (concat (executed res.2)) t).
  { unfold res. rewrite main_unfold.
    destruct (String.eqb _ _); [reflexivity|].
    destruct (_ && _); [reflexivity|].
    destruct wx_dir as [files|]; [apply load_store|reflexivity]. }
  assert (G : weather res.2 !! k =
              match last_write k (stored_rows (concat (executed res.2))) with
              | Some v => Some v
              | None => t !! k
              end)
    by (rewrite H; apply upsert_lookup_last).
  split; [exact G|]. rewrite G.
  destruct (last_write _ _); [eauto|trivial].
Qed.

Lemma last_committed_write_wins_witness :
  let files := [("USC00110072"%string,
                 [tsv_line ["19850101"; "123"; "-9999"; "100"];
                  tsv_line ["19850101"; "1"; "2"; "3"]])] in
  let res := main 1 false 4300 "postgresql://db/weather" (Some files) ∅ in
  res.1 = Ok Completed
  /\ weather res.2 !! ("USC00110072"%string, (1985, 1, 1)%Z)
     = Some {| max_temp_c := Some 0.1%float; min_temp_c := Some 0.2%float;
               precip_cm := Some 0.03%float |}.
Proof.
  intros files res. split; [vm_compute; reflexivity|].
  refine (eq_trans (proj1 (last_committed_write_wins 1 false 4300
                             "postgresql://db/weather" (Some files) ∅
                             ("USC00110072"%string, (1985, 1, 1)%Z))) _).
  vm_compute. reflexivity.
Defined.

Lemma statement_ok_rows page :
  statement_ok page = true -> Forall (fun r => is_Some (date_in r.1.2)) page.
Proof.
  unfold statement_ok. intros H.
  destruct (mapM cast_row page) as [rows|] eqn:E; [|discriminate].
  clear H. apply mapM_Some in E.
  induction E as [|r c page rows Hr _ IH]; constructor; [|exact IH].
  unfold cast_row in Hr. destruct (date_in r.1.2); [eauto|discriminate].
Qed.

Lemma batch_ok_rows rows n :
  batch_ok rows n = true -> Forall (fun r => is_Some (date_in r.1.2)) rows.
Proof.
  unfold batch_ok. intros H. rewrite <- (paginate_concat rows n).
  apply Forall_concat. apply Forall_forall. intros page Hin.
  apply statement_ok_rows.
  rewrite forallb_forall in H. apply H. apply list_elem_of_In. exact Hin.
Qed.

Lemma flush_ok_batch s s' :
  flush s = (Ok tt, s') ->
  batch_ok (batch s) 5000 = true /\ executed s' = executed s ++ [batch s].
Proof.
  unfold flush. rewrite execute_values_spec.
  destruct (batch_ok (batch s) 5000); intros H; [|discriminate].
  injection H as <-. split; reflexivity.
Qed.

Lemma on_line_batches_ok ce m sid line s s' :
  Forall (fun b => batch_ok b 5000 = true) (executed s) ->
  on_line ce m sid line s = (Ok tt, s') ->
  Forall (fun b => batch_ok b 5000 = true) (executed s').
Proof.
  intros Hs Hrun.
  unfold on_line, mbind, M_bind, modify, gets, raise in Hrun. simpl in Hrun.
  destruct (parse_line m sid line) as [[|r]|e]; [| |discriminate].
  - injection Hrun as <-. exact Hs.
  - destruct (_ <=? _)%Z.
    + apply flush_ok_batch in Hrun as [Hb ->]. simpl in Hb.
      apply Forall_app. split; [exact Hs|]. constructor; [exact Hb|constructor].
    + injection Hrun as <-. exact Hs.
Qed.

(** X11.  A run completes only if the store accepted every statement: the
    date of every accepted line is then a date of the calendar, and no
    committed batch holds the same station and date twice within one
    statement.  So one accepted line with an impossible date makes the run
    raise. *)
Theorem completed_run_has_calendar_dates (COMMIT_EVERY : Z)
    (FORCE_INGEST : bool) (max_str_digits : nat) (database_url : string)
    (files : list (string * list string)) (t : weather_table) (s : state) :
  main COMMIT_EVERY FORCE_INGEST max_str_digits database_url (Some files) t
    = (Ok Completed, s) ->
  Forall (fun r => is_Some (date_in r.1.2))
         (omap (accepted_row max_str_digits) (lines_of files))
  /\ Forall (fun b => batch_ok b 5000 = true) (executed s).
Proof.
  intros H. apply main_completed in H as (files' & Hf & Hl).
  injection Hf as <-.
  destruct (load_completed _ _ _ _ _ Hl) as (_ & _ & H3 & _).
  assert (Hb : Forall (fun b => batch_ok b 5000 = true) (executed s)).
  { revert Hl. unfold load, try_finally, ingest_files.
    unfold mbind at 1, M_bind at 1.
    rewrite (for_each_files files (on_line COMMIT_EVERY max_str_digits)).
    destruct (for_each (lines_of files) _ _) as [[[]|e] s1] eqn:Hloop;
      [|discriminate].
    assert (H1 : Forall (fun b => batch_ok b 5000 = true) (executed s1)).
    { refine (for_each_ok_ind
                (fun _ s0 => Forall (fun b => batch_ok b 5000 = true) (executed s0))
                _ _ (set_conn true (init t)) s1 _ _ Hloop);
        [constructor|].
      intros pre x s0 s' Hi Hx. eapply on_line_batches_ok; eassumption. }
    destruct (final_flush s1) as [[[]|e] s2] eqn:Hfin; [|discriminate].
    intros Heq. injection Heq as <-. unfold set_conn; cbn [executed].
    unfold final_flush, mbind, M_bind, gets in Hfin. simpl in Hfin.
    destruct (batch s1) eqn:Eb.
    - injection Hfin as <-. exact H1.
    - apply flush_ok_batch in Hfin as [Hok ->]. rewrite Eb in *.
      apply Forall_app. split; [exact H1|]. constructor; [exact Hok|constructor]. }
  split; [|exact Hb].
  rewrite <- H3. apply Forall_concat.
  eapply Forall_impl; [exact Hb|]. intros b. apply batch_ok_rows.
Qed.

Lemma completed_run_has_calendar_dates_witness :
  let files := [("USC00110072"%string,
                 [tsv_line ["19840229"; "123"; "-9999"; "100"];
                  tsv_line ["19850102"; "1"; "2"; "3"]])] in
  let res := main 20000 false 4300 "postgresql://db/weather" (Some files) ∅ in
  res = (Ok Completed, res.2)
  /\ Forall (fun r => is_Some (date_in r.1.2))
            (omap (accepted_row 4300) (lines_of files)).
Proof.
  intros files res.
  assert (E : res = (Ok Completed, res.2)) by (vm_compute; reflexivity).
  split; [exact E|].
  apply (completed_run_has_calendar_dates 20000 false 4300
           "postgresql://db/weather" files ∅ res.2 E).
Defined.

End ExtraRuns.

(** ** The order of the files *)
Section ExtraOrder.
Import PyStr PyNum Storage Psycopg2 IngestScript.

Lemma filter_all {A} (P : A -> Prop) `{forall x, Decision (P x)} (l : list A) :
  (forall x, x ∈ l -> P x) -> filter P l = l.
Proof.
  induction l as [|x l IH]; intros Hall; [reflexivity|].
  rewrite filter_cons_True by (apply Hall; apply elem_of_cons; left; reflexivity).
  f_equal. apply IH. intros y Hy. apply Hall. apply elem_of_cons. right. exact Hy.
Qed.

Lemma filter_none {A} (P : A -> Prop) `{forall x, Decision (P x)} (l : list A) :
  (forall x, x ∈ l -> ~ P x) -> filter P l = [].
Proof.
  induction l as [|x l IH]; intros Hall; [reflexivity|].
  rewrite filter_cons_False by (apply Hall; apply elem_of_cons; left; reflexivity).
  apply IH. intros y Hy. apply Hall. apply elem_of_cons. right. exact Hy.
Qed.

Lemma accepted_row_station m p r : accepted_row m p = Some r -> r.1.1 = p.1.
Proof.
  unfold accepted_row.
  destruct (parse_line m p.1 p.2) as [[|r']|] eqn:E; try discriminate.
  intros H. injection H as <-.
  apply parse_line_accepted in E as (_ & Hs & _). exact Hs.
Qed.

(** The accepted rows of one station are the accepted rows of the files
    with this stem. *)
Lemma accepted_rows_of_station m sid (files : list (string * list string)) :
  filter (fun r : row => r.1.1 = sid) (omap (accepted_row m) (lines_of files))
  = omap (accepted_row m) (lines_of (filter (fun fp => fp.1 = sid) files)).
Proof.
  induction files as [|fp files IH]; [reflexivity|].
  change (lines_of (fp :: files))
    with (((fun l => (fp.1, l)) <$> fp.2) ++ lines_of files).
  rewrite omap_app, filter_app, IH.
  assert (Hall : forall r, r ∈ omap (accepted_row m) ((fun l => (fp.1, l)) <$> fp.2) ->
                           r.1.1 = fp.1).
  { intros r Hr. apply list_elem_of_omap in Hr as (p & Hp & Hacc).
    apply list_elem_of_fmap in Hp as (l & -> & _).
    apply accepted_row_station in Hacc. exact Hacc. }
  destruct (decide (fp.1 = sid)) as [Heq|Hne].
  - rewrite filter_cons_True by exact Heq.
    change (lines_of (fp :: filter (fun fp0 => fp0.1 = sid) files))
      with (((fun l => (fp.1, l)) <$> fp.2)
              ++ lines_of (filter (fun fp0 => fp0.1 = sid) files)).
    rewrite omap_app. f_equal.
    apply filter_all. intros r Hr. rewrite (Hall r Hr). exact Heq.
  - rewrite filter_cons_False by exact Hne.
    rewrite filter_none; [reflexivity|].
    intros r Hr. rewrite (Hall r Hr). exact Hne.
Qed.

Lemma NoDup_fmap_filter {A B} (f : A -> B) (P : A -> Prop)
    `{forall x, Decision (P x)} (l : list A) :
  NoDup (f <$> l) -> NoDup (f <$> filter P l).
Proof.
  induction l as [|x l IH]; intros Hnd; [constructor|].
  rewrite fmap_cons in Hnd. apply NoDup_cons in Hnd as [Hx Hnd].
  destruct (decide (P x)) as [Hp|Hp].
  - rewrite filter_cons_True by exact Hp. rewrite fmap_cons.
    apply NoDup_cons. split; [|apply IH; exact Hnd].
    intros Hin. apply Hx.
    apply list_elem_of_fmap in Hin as (y & -> & Hy).
    apply list_elem_of_filter in Hy as [_ Hy].
    apply list_elem_of_fmap. eauto.
  - rewrite filter_cons_False by exact Hp. apply IH. exact Hnd.
Qed.

(** Files with distinct stems: at most one has a given stem, so a
    reordering keeps the files of a station as they are. *)
Lemma files_of_station_permutation sid (files files' : list (string * list string)) :
  files ≡ₚ files' -> NoDup (files.*1) ->
  filter (fun fp => fp.1 = sid) files = filter (fun fp => fp.1 = sid) files'.
Proof.
  intros Hperm Hnd.
  assert (Hp : filter (fun fp => fp.1 = sid) files
               ≡ₚ filter (fun fp => fp.1 = sid) files')
    by (rewrite Hperm; reflexivity).
  pose proof (NoDup_fmap_filter fst (fun fp => fp.1 = sid) files Hnd) as Hnd'.
  assert (Hs : forall fp, fp ∈ filter (fun fp => fp.1 = sid) files -> fp.1 = sid)
    by (intros fp Hin; apply list_elem_of_filter in Hin as [Hin _]; exact Hin).
  destruct (filter (fun fp => fp.1 = sid) files) as [|x [|y l]].
  - apply Permutation_nil_l in Hp. exact Hp.
  - apply Permutation_singleton_l in Hp. exact Hp.
  - exfalso. rewrite !fmap_cons in Hnd'.
    apply NoDup_cons in Hnd' as [Hx _]. apply Hx.
    rewrite (Hs x) by (apply elem_of_cons; left; reflexivity).
    rewrite <- (Hs y) by (apply elem_of_cons; right; apply elem_of_cons; left; reflexivity).
    apply elem_of_cons. left. reflexivity.
Qed.

Lemma cast_row_station r c : cast_row r = Some c -> c.1.1 = r.1.1.
Proof.
  unfold cast_row. destruct (date_in r.1.2); [|discriminate].
  intros H. injection H as <-. reflexivity.
Qed.

Lemma stored_rows_of_key (k : string * date) (rows : list row) :
  filter (fun c : (string * date) * measurements => c.1 = k) (stored_rows rows)
  = filter (fun c : (string * date) * measurements => c.1 = k)
           (stored_rows (filter (fun r : row => r.1.1 = k.1) rows)).
Proof.
  unfold stored_rows. induction rows as [|r rows IH]; [reflexivity|].
  destruct (decide (r.1.1 = k.1)) as [Heq|Hne].
  - rewrite filter_cons_True by exact Heq. cbn.
    destruct (cast_row r) as [c|]; [|exact IH].
    rewrite !(filter_cons (fun c0 : (string * date) * measurements => c0.1 = k)).
    rewrite IH. reflexivity.
  - rewrite filter_cons_False by exact Hne. cbn.
    destruct (cast_row r) as [c|] eqn:E; [|exact IH].
    rewrite filter_cons_False; [exact IH|].
    intros Hc. apply Hne. rewrite <- (cast_row_station _ _ E), Hc. reflexivity.
Qed.

(** X12.  The order in which the files are read does not matter, nor does
    the batch size: two completed runs from the same table over the same
    files with distinct stems, in any two orders and with any two values of
    COMMIT_EVERY, leave the same table. *)
Theorem file_order_does_not_matter (ce ce' : Z) (force force' : bool)
    (max_str_digits : nat) (url url' : string)
    (files files' : list (string * list string)) (t : weather_table)
    (s s' : state) :
  files ≡ₚ files' -> NoDup (files.*1) ->
  main ce force max_str_digits url (Some files) t = (Ok Completed, s) ->
  main ce' force' max_str_digits url' (Some files') t = (Ok Completed, s') ->
  weather s = weather s'.
Proof.
  intros Hperm Hnd H H'.
  apply main_completed in H as (f1 & Hf1 & Hl). injection Hf1 as <-.
  apply main_completed in H' as (f2 & Hf2 & Hl'). injection Hf2 as <-.
  pose proof (load_store ce max_str_digits files t) as Hs.
  pose proof (load_store ce' max_str_digits files' t) as Hs'.
  rewrite Hl in Hs. rewrite Hl' in Hs'. cbn [snd] in Hs, Hs'.
  destruct (load_completed _ _ _ _ _ Hl) as (_ & _ & H3 & _).
  destruct (load_completed _ _ _ _ _ Hl') as (_ & _ & H3' & _).
  rewrite Hs, Hs', H3, H3'. apply map_eq. intros k.
  unfold upsert_all. rewrite !upsert_lookup_last. unfold last_write.
  rewrite (stored_rows_of_key k (omap _ (lines_of files))).
  rewrite (stored_rows_of_key k (omap _ (lines_of files'))).
  rewrite !accepted_rows_of_station.
  rewrite (files_of_station_permutation k.1 files files' Hperm Hnd).
  reflexivity.
Qed.

Lemma file_order_does_not_matter_witness :
  let a := ("USC00110072"%string,
            [tsv_line ["19850101"; "123"; "-9999"; "100"];
             tsv_line ["19850102"; "1"; "2"; "3"]]) in
  let b := ("USC00110187"%string,
            [tsv_line ["19850101"; "-50"; "-60"; "0"]]) in
  let r1 := main 1 false 4300 "postgresql://db/weather" (Some [a; b]) ∅ in
  let r2 := main 20000 false 4300 "postgresql://db/weather" (Some [b; a]) ∅ in
  r1 = (Ok Completed, r1.2) /\ r2 = (Ok Completed, r2.2)
  /\ weather r1.2 = weather r2.2.
Proof.
  intros a b r1 r2.
  assert (E1 : r1 = (Ok Completed, r1.2)) by (vm_compute; reflexivity).
  assert (E2 : r2 = (Ok Completed, r2.2)) by (vm_compute; reflexivity).
  split; [exact E1|]. split; [exact E2|].
  apply (file_order_does_not_matter 1 20000 false false 4300
           "postgresql://db/weather" "postgresql://db/weather"
           [a; b] [b; a] ∅ r1.2 r2.2); [apply Permutation_swap| |exact E1|exact E2].
  apply NoDup_cons. split; [|apply NoDup_singleton].
  intros Hin. apply list_elem_of_singleton in Hin. discriminate.
Defined.

End ExtraOrder.

(** * Further properties of the start-up ingestion *)
Section ExtraStartup.
Import Storage AppIngest.

Ltac kept :=
  repeat match goal with
         | |- _ /\ _ => split
         | |- forall _, _ => intro
         | |- _ -> _ => intro
         end;
  try discriminate; try congruence;
  try solve [ apply lookup_insert_eq
            | assumption
            | reflexivity
            | match goal with
              | H : _ !! _ = Some _ |- foldl on_conflict_do_nothing _ ?l !! _ = Some _ =>
                  apply (do_nothing_keeps (_ :: l)); exact H
              end ].

(** Facts on every run, whatever fails. *)
Lemma startup_run_facts
    (lw : list ((string * date) * measurements))
    (ls : list ((string * Z) * yearly)) (w : world) :
  let res := run_startup_ingestion lw ls w in
  (forall n m, res.1 = Ok (Done n m) ->
     marker_of (committed res.2) = Some true)
  /\ (forall k v, weather (committed w) !! k = Some v ->
        weather (committed res.2) !! k = Some v)
  /\ (forall k v, weather_stats (committed w) !! k = Some v ->
        weather_stats (committed res.2) !! k = Some v)
  /\ (marker_of (committed w) = Some true -> committed res.2 = committed w).
Proof.
  destruct lw, ls; run_app; repeat fault_split.
  all: kept.
Qed.

Lemma completed_marker_skips
    (lw : list ((string * date) * measurements))
    (ls : list ((string * Z) * yearly)) (w : world) :
  marker_of (committed w) = Some true ->
  (forall i, faults w i = false) ->
  (run_startup_ingestion lw ls w).1 = Ok Skipped.
Proof.
  unfold marker_of. intros Hm Hf.
  run_app. repeat (rewrite Hf; cbn). rewrite Hm. reflexivity.
Qed.

(** X7.  The start-up ingestion runs once: after a run that reported
    success, a later run over the store it left, with rows of any loader
    and no failing round trip, skips and leaves the store as it is. *)
Theorem startup_ingests_once
    (lw lw' : list ((string * date) * measurements))
    (ls ls' : list ((string * Z) * yearly)) (w w' : world) (n m : nat) :
  (run_startup_ingestion lw ls w).1 = Ok (Done n m) ->
  committed w' = committed (run_startup_ingestion lw ls w).2 ->
  (forall i, faults w' i = false) ->
  (run_startup_ingestion lw' ls' w').1 = Ok Skipped
  /\ committed (run_startup_ingestion lw' ls' w').2 = committed w'.
Proof.
  intros Hdone Hw' Hf.
  pose proof (startup_run_facts lw ls w) as (Hm & _).
  specialize (Hm n m Hdone). rewrite <- Hw' in Hm.
  split; [apply completed_marker_skips; assumption|].
  pose proof (startup_run_facts lw' ls' w') as (_ & _ & _ & Hsame).
  apply Hsame. exact Hm.
Qed.

Lemma startup_ingests_once_witness :
  let w := fresh_world no_fault false (mk_db ∅ ∅ ∅) in
  let rows := [(("USC00110072"%string, (1985, 1, 1)%Z), measured)] in
  let res := run_startup_ingestion rows [] w in
  let w' := fresh_world no_fault false (committed res.2) in
  res.1 = Ok (Done 1 0)
  /\ (run_startup_ingestion rows [] w').1 = Ok Skipped
  /\ committed (run_startup_ingestion rows [] w').2 = committed w'.
Proof.
  intros w rows res w'.
  assert (E : res.1 = Ok (Done 1 0)) by (vm_compute; reflexivity).
  split; [exact E|].
  apply (startup_ingests_once rows rows [] [] w w' 1 0 E);
    [reflexivity|reflexivity].
Defined.

(** X8.  Whatever round trip fails, a start-up run neither deletes nor
    changes a committed row of the observations or of the yearly
    statistics; and when the marker row is completed it commits nothing. *)
Theorem startup_keeps_existing_rows
    (load_weather_rows : list ((string * date) * measurements))
    (load_stats_rows : list ((string * Z) * yearly)) (w : world) :
  let res := run_startup_ingestion load_weather_rows load_stats_rows w in
  (forall k v, weather (committed w) !! k = Some v ->
     weather (committed res.2) !! k = Some v)
  /\ (forall k v, weather_stats (committed w) !! k = Some v ->
        weather_stats (committed res.2) !! k = Some v)
  /\ (marker_of (committed w) = Some true -> committed res.2 = committed w).
Proof.
  intros res.
  pose proof (startup_run_facts load_weather_rows load_stats_rows w)
    as (_ & H1 & H2 & H3).
  split; [exact H1|]. split; [exact H2|exact H3].
Qed.

Lemma startup_keeps_existing_rows_witness :
  let key := ("USC00110072"%string, (1985, 1, 1)%Z) in
  let w := fresh_world (fun i => Nat.eqb i 6) false (mk_db one_row ∅ ∅) in
  let res := run_startup_ingestion [(key, measured)] [] w in
  res.1 = Raise StorageError
  /\ weather (committed res.2) !! key = Some blank.
Proof.
  intros key w res. split; [vm_compute; reflexivity|].
  apply (proj1 (startup_keeps_existing_rows [(key, measured)] [] w)).
  reflexivity.
Defined.

(** The first value a list of rows proposes for a key. *)
Definition first_write {K V} `{EqDecision K} (k : K) (rows : list (K * V))
    : option V :=
  snd <$> head (filter (fun r => r.1 = k) rows).

Lemma do_nothing_lookup {K V} `{Countable K} (rows : list (K * V))
    (t : gmap K V) (k : K) :
  foldl on_conflict_do_nothing t rows !! k =
  match t !! k with
  | Some v => Some v
  | None => first_write k rows
  end.
Proof.
  unfold first_write. revert t.
  induction rows as [|r rows IH]; intros t; simpl.
  - destruct (t !! k); reflexivity.
  - rewrite IH. unfold on_conflict_do_nothing.
    destruct (decide (r.1 = k)) as [Heq|Hne].
    + rewrite filter_cons_True by exact Heq. simpl. rewrite Heq.
      destruct (t !! k) as [v|] eqn:E; [rewrite E; reflexivity|].
      rewrite lookup_insert_eq. reflexivity.
    + rewrite filter_cons_False by exact Hne.
      destruct (t !! r.1) eqn:E; [reflexivity|].
      rewrite lookup_insert_ne by exact Hne. reflexivity.
Qed.

(** X9.  When no round trip fails, the insert of the application leaves
    under every key the row that was there, and under a new key the first
    row of the statement that carries it (the first write wins, later rows
    with the same station and date are dropped); a statement with rows is
    committed. *)
Theorem insert_first_write_wins
    (rows : list ((string * date) * measurements)) (w : world) :
  (forall i, faults w i = false) ->
  let res := ingest_weather rows w in
  (forall k,
     weather (working res.2) !! k =
     match weather (working w) !! k with
     | Some v => Some v
     | None => first_write k rows
     end)
  /\ (rows <> [] -> committed res.2 = working res.2).
Proof.
  intros Hf res. unfold res. clear res.
  destruct rows as [|r rows].
  - simpl. split; [|congruence].
    intros k. destruct (weather (working w) !! k); reflexivity.
  - run_app. repeat (rewrite Hf; cbn).
    split; [|reflexivity].
    intros k. apply (do_nothing_lookup (r :: rows)).
Qed.

Lemma insert_first_write_wins_witness :
  let key := ("USC00110072"%string, (1985, 1, 1)%Z) in
  let w := fresh_world no_fault false (mk_db ∅ ∅ ∅) in
  let res := ingest_weather [(key, measured); (key, blank)] w in
  weather (committed res.2) !! key = Some measured.
Proof.
  intros key w res.
  destruct (insert_first_write_wins [(key, measured); (key, blank)] w)
    as (H1 & H2); [reflexivity|].
  unfold res. rewrite H2 by discriminate. rewrite H1. reflexivity.
Defined.

(** X13.  With the loaders of the repository, which return no rows, a
    start-up run in which no round trip fails either skips and commits
    nothing, or reports zero inserted rows and commits the completed marker
    and nothing else: it issues no insert. *)
Theorem stub_loaders_only_set_marker (w : world) :
  (forall i, faults w i = false) ->
  let res := run_startup_ingestion [] [] w in
  (res.1 = Ok Skipped /\ committed res.2 = committed w)
  \/ (res.1 = Ok (Done 0 0)
      /\ committed res.2
         = mk_db (weather (committed w)) (weather_stats (committed w))
                 (<[INGESTION_KEY := true]> (ingestion_state (committed w)))
      /\ (InsertWeather ∉ new_events w res.2)
      /\ (InsertStats ∉ new_events w res.2)).
Proof.
  intros Hf. run_app. repeat (rewrite Hf; cbn).
  destruct (ingestion_state (committed w) !! INGESTION_KEY) as [[|]|]; cbn;
    repeat (rewrite Hf; cbn).
  - left. split; reflexivity.
  - right. leaf.
  - destruct (_ && _); cbn; repeat (rewrite Hf; cbn).
    + left. split; reflexivity.
    + right. leaf.
Qed.

Lemma stub_loaders_only_set_marker_witness :
  let w := fresh_world no_fault false (mk_db ∅ ∅ ∅) in
  let res := run_startup_ingestion [] [] w in
  res.1 = Ok (Done 0 0)
  /\ weather (committed res.2) = ∅
  /\ marker_of (committed res.2) = Some true.
Proof.
  intros w res.
  destruct (stub_loaders_only_set_marker w) as [[H _]|(H1 & H2 & _)];
    [reflexivity|vm_compute in H; discriminate|].
  split; [exact H1|]. unfold res. rewrite H2. split; reflexivity.
Defined.

End ExtraStartup.

(** * The write of the yearly statistics *)

(** ** src/compute_stats.py, the loop over the results and the commit *)
Module ComputeStatsRun.
Import Storage ComputeStats.

(** The INSERT that a merged [WeatherStats] object becomes at the flush.
    The object is built without its primary key [id], so [db.merge] finds
    no row to update and adds a new one; the store raises when a row with
    the same station and year exists ([uq_stats_station_year]). *)
Definition insert_stat (t : stats_table) (r : (string * Z) * yearly)
    : result stats_table :=
  match t !! r.1 with
  | Some existing => Raise StorageError
  | None => Ok (<[r.1 := r.2]> t)
  end.

Fixpoint insert_stats (results : list ((string * Z) * yearly))
    (t : stats_table) : result stats_table :=
  match results with
  | [] => Ok t
  | r :: results' => insert_stat t r ≫= insert_stats results'
  end.

(** [main()], from the rows of [weather] as the store scans them and the
    table [weather_stats] at the start: the result is [rows_written] and
    the table as committed; when the query or the session raises, nothing
    of the run is committed. *)
Definition main (rows : list ((string * date) * measurements))
    (st : stats_table) : result nat * stats_table :=
  match query rows with
  | Raise e => (Raise e, st)
  | Ok results =>
      match insert_stats results st with
      | Ok st' => (Ok (length results), st')
      | Raise e => (Raise e, st)
      end
  end.

End ComputeStatsRun.

Section ExtraStats.
Import Storage ComputeStats ComputeStatsRun.

Lemma insert_stats_fresh (results : list ((string * Z) * yearly))
    (t : stats_table) :
  NoDup (results.*1) ->
  (forall r, r ∈ results -> t !! r.1 = None) ->
  exists t',
    insert_stats results t = Ok t'
    /\ (forall r, r ∈ results -> t' !! r.1 = Some r.2)
    /\ (forall g, g ∉ results.*1 -> t' !! g = t !! g).
Proof.
  revert t. induction results as [|r results IH]; intros t Hnd Hfresh.
  - exists t. split; [reflexivity|]. split; [|reflexivity].
    intros r Hr. apply elem_of_nil in Hr. contradiction.
  - rewrite fmap_cons in Hnd. apply NoDup_cons in Hnd as [Hr Hnd].
    simpl. unfold insert_stat.
    rewrite (Hfresh r) by (apply elem_of_cons; left; reflexivity). simpl.
    destruct (IH (<[r.1 := r.2]> t) Hnd) as (t' & Hrun & Hin & Hout).
    { intros r' Hr'. rewrite lookup_insert_ne.
      - apply Hfresh. apply elem_of_cons. right. exact Hr'.
      - intros Heq. apply Hr. rewrite Heq.
        apply list_elem_of_fmap. exists r'. split; [reflexivity|exact Hr']. }
    exists t'. split; [exact Hrun|]. split.
    + intros r' Hr'. apply elem_of_cons in Hr' as [->|Hr']; [|apply Hin; exact Hr'].
      rewrite (Hout _ Hr). apply lookup_insert_eq.
    + intros g Hg.
      assert (Hg' : g <> r.1 /\ g ∉ results.*1)
        by (apply not_elem_of_cons; exact Hg).
      destruct Hg' as [Hne Hg']. rewrite (Hout g Hg').
      apply lookup_insert_ne. congruence.
Qed.

Lemma insert_stats_conflict (results : list ((string * Z) * yearly))
    (t : stats_table) r :
  r ∈ results -> is_Some (t !! r.1) ->
  insert_stats results t = Raise StorageError.
Proof.
  revert t. induction results as [|r0 results IH]; intros t Hin Hr.
  - apply elem_of_nil in Hin. contradiction.
  - simpl. unfold insert_stat at 1.
    destruct (t !! r0.1) as [v|] eqn:E; [reflexivity|]. simpl.
    apply elem_of_cons in Hin as [->|Hin].
    + rewrite E in Hr. destruct Hr as [? ?]. discriminate.
    + apply IH; [exact Hin|].
      destruct (decide (r0.1 = r.1)) as [Heq|Hne].
      * rewrite <- Heq, lookup_insert_eq. eauto.
      * rewrite lookup_insert_ne by exact Hne. exact Hr.
Qed.

Lemma query_nodup rows results :
  query rows = Ok results -> NoDup (results.*1).
Proof. intros H. rewrite (query_keys _ _ H). apply NoDup_remove_dups. Qed.

Lemma query_has_group (w : weather_table) rows results k v :
  scan_of w rows -> query rows = Ok results -> w !! k = Some v ->
  exists y, (group_key k, y) ∈ results.
Proof.
  intros Hscan Hq Hkv.
  assert (Hg : group_key k ∈ results.*1).
  { rewrite (query_keys _ _ Hq). apply elem_of_groups.
    exists (k, v). split; [|reflexivity].
    apply (scan_lookup _ _ _ _ Hscan). exact Hkv. }
  apply list_elem_of_fmap in Hg as ([g y] & Hfst & Hin).
  simpl in Hfst. subst g. exists y. exact Hin.
Qed.

Lemma query_group_has_row (w : weather_table) rows results g y :
  scan_of w rows -> query rows = Ok results -> (g, y) ∈ results ->
  exists k v, w !! k = Some v /\ group_key k = g.
Proof.
  intros Hscan Hq Hin.
  assert (Hg : g ∈ results.*1)
    by (apply list_elem_of_fmap; exists (g, y); split; [reflexivity|exact Hin]).
  rewrite (query_keys _ _ Hq) in Hg.
  apply elem_of_groups in Hg as ([k v] & Hr & Hk).
  exists k, v. split; [|exact Hk].
  apply (scan_lookup _ _ _ _ Hscan). exact Hr.
Qed.

Lemma main_query_raises rows st e :
  query rows = Raise e -> main rows st = (Raise StorageError, st).
Proof.
  intros H. unfold main. rewrite H. rewrite (query_raises _ _ H). reflexivity.
Qed.

Lemma main_first_run rows results :
  query rows = Ok results ->
  (main rows ∅).1 = Ok (length results)
  /\ (forall g y, (g, y) ∈ results -> (main rows ∅).2 !! g = Some y).
Proof.
  intros Hq. unfold main. rewrite Hq.
  destruct (insert_stats_fresh results ∅ (query_nodup _ _ Hq))
    as (t' & Hrun & Hin & Hout).
  { intros r _. apply lookup_empty. }
  rewrite Hrun. simpl. split; [reflexivity|].
  intros g y Hgy. apply (Hin (g, y) Hgy).
Qed.

Lemma main_conflict (w : weather_table) rows st k v :
  scan_of w rows -> w !! k = Some v -> is_Some (st !! group_key k) ->
  main rows st = (Raise StorageError, st).
Proof.
  intros Hscan Hkv Hs.
  destruct (query rows) as [results|e] eqn:Hq;
    [|apply (main_query_raises _ _ _ Hq)].
  unfold main. rewrite Hq.
  destruct (query_has_group _ _ _ _ _ Hscan Hq Hkv) as (y & Hin).
  rewrite (insert_stats_conflict results st (group_key k, y) Hin Hs).
  reflexivity.
Qed.

(** X6.  When the table of yearly statistics has no row for any station
    and year of the observations and the query succeeds, [main] commits one
    row per group, with the aggregates of the query, reports their number,
    and leaves the other rows of the table alone.  When the query raises,
    [main] raises and commits nothing. *)
Theorem stats_first_run (w : weather_table)
    (rows : list ((string * date) * measurements)) (st : stats_table) :
  scan_of w rows ->
  (forall k v, w !! k = Some v -> st !! group_key k = None) ->
  (forall results, query rows = Ok results ->
     (main rows st).1 = Ok (length results)
     /\ (forall g y, (g, y) ∈ results -> (main rows st).2 !! g = Some y)
     /\ (forall k v, w !! k = Some v ->
           exists y, (group_key k, y) ∈ results)
     /\ (forall g, g ∉ results.*1 -> (main rows st).2 !! g = st !! g))
  /\ (forall e, query rows = Raise e ->
        main rows st = (Raise StorageError, st)).
Proof.
  intros Hscan Hfresh. split; [|intros e; apply main_query_raises].
  intros results Hq. unfold main. rewrite Hq.
  destruct (insert_stats_fresh results st (query_nodup _ _ Hq))
    as (t' & Hrun & Hin & Hout).
  { intros [g y] Hr.
    destruct (query_group_has_row _ _ _ _ _ Hscan Hq Hr) as (k & v & Hkv & <-).
    apply (Hfresh k v Hkv). }
  rewrite Hrun. simpl. split; [reflexivity|]. split; [|split].
  - intros g y Hgy. apply (Hin (g, y) Hgy).
  - intros k v Hkv. apply (query_has_group _ _ _ _ _ Hscan Hq Hkv).
  - exact Hout.
Qed.

Lemma stats_first_run_witness :
  scan_of two_days (map_to_list two_days)
  /\ (main (map_to_list two_days) ∅).1 = Ok 1
  /\ (main (map_to_list two_days) ∅).2 !! ("USC00110072"%string, 1985%Z)
     = Some {| avg_max_temp_c := Some 10%float;
               avg_min_temp_c := Some 2.5%float;
               total_precip_cm := None |}.
Proof.
  assert (Hs : scan_of two_days (map_to_list two_days))
    by (unfold scan_of; reflexivity).
  split; [exact Hs|].
  destruct (stats_first_run two_days (map_to_list two_days) ∅ Hs) as [H _].
  { intros k v _. apply lookup_empty. }
  destruct (H _ ltac:(vm_compute; reflexivity)) as (H1 & H2 & _).
  split; [exact H1|]. apply H2. apply list_elem_of_here.
Defined.

(** X10.  When the table of yearly statistics already has a row for a
    station and year of the observations, [main] raises and commits
    nothing.  So a second run after a first one, over observations that
    are not empty, raises and leaves the statistics of the first run as
    they are: the rows are inserted, never updated.  After a first run
    that succeeded this holds in whatever order the second run scans the
    observations. *)
Theorem stats_rerun_raises (w : weather_table)
    (rows : list ((string * date) * measurements)) (st : stats_table) :
  scan_of w rows ->
  (forall k v, w !! k = Some v -> is_Some (st !! group_key k) ->
     main rows st = (Raise StorageError, st))
  /\ (w <> ∅ ->
      main rows (main rows ∅).2 = (Raise StorageError, (main rows ∅).2))
  /\ (forall rows' n, scan_of w rows' -> w <> ∅ ->
        (main rows ∅).1 = Ok n ->
        main rows' (main rows ∅).2 = (Raise StorageError, (main rows ∅).2)).
Proof.
  intros Hscan.
  assert (G : forall rows', scan_of w rows' -> w <> ∅ ->
                forall results, query rows = Ok results ->
                main rows' (main rows ∅).2
                = (Raise StorageError, (main rows ∅).2)).
  { intros rows' Hscan' Hne results Hq.
    destruct (map_choose w Hne) as (k & v & Hkv).
    apply (main_conflict w rows' _ k v Hscan' Hkv).
    destruct (query_has_group _ _ _ _ _ Hscan Hq Hkv) as (y & Hin).
    destruct (main_first_run _ _ Hq) as (_ & H2).
    rewrite (H2 _ y Hin). eauto. }
  split; [|split].
  - intros k v Hkv Hs. apply (main_conflict w rows st k v Hscan Hkv Hs).
  - intros Hne. destruct (query rows) as [results|e] eqn:Hq.
    + apply (G rows Hscan Hne results). reflexivity.
    + apply (main_query_raises _ _ _ Hq).
  - intros rows' n Hscan' Hne Hok.
    destruct (query rows) as [results|e] eqn:Hq.
    + apply (G rows' Hscan' Hne results). reflexivity.
    + rewrite (main_query_raises _ ∅ _ Hq) in Hok. discriminate.
Qed.

Lemma stats_rerun_raises_witness :
  scan_of two_days (map_to_list two_days)
  /\ (main (map_to_list two_days) ∅).1 = Ok 1
  /\ main (map_to_list two_days) (main (map_to_list two_days) ∅).2
     = (Raise StorageError, (main (map_to_list two_days) ∅).2).
Proof.
  assert (Hs : scan_of two_days (map_to_list two_days))
    by (unfold scan_of; reflexivity).
  split; [exact Hs|]. split; [vm_compute; reflexivity|].
  apply (proj1 (proj2 (stats_rerun_raises two_days (map_to_list two_days) ∅ Hs))).
  apply insert_non_empty.
Defined.

End ExtraStats.
